(** * tui.image-editor: the editor facade, its mode machine and the invoker

    A shallow embedding of [src/js/imageEditor.js].  The facade is a class
    whose methods mutate [this]; here every method is a function from the
    editor state to an outcome (normal return or raised exception, each
    with the state reached).  The invoker, the command factory, the
    per-tool components and [consts] are required by the file but live in
    other modules; they are modelled from the specification and marked as
    such.  The editor runs on one thread and does not queue overlapping
    commands: an action that waits for a resource is taken as a whole, at
    the point where its result is there. *)

From Stdlib Require Import List String ZArith Bool Arith Lia.
Import ListNotations.
Open Scope string_scope.

(** ** Constants ([consts.js]) *)

(** Modelled from the spec: [consts.states], the four editor modes. *)
Module states.

Inductive t := NORMAL | CROP | FREE_DRAWING | TEXT.

(** [a === b] *)
Definition eqb (a b : t) : bool :=
  match a, b with
  | NORMAL, NORMAL | CROP, CROP | FREE_DRAWING, FREE_DRAWING | TEXT, TEXT => true
  | _, _ => false
  end.

End states.

(** Modelled from the spec: [consts.eventNames], the outbound notification
    catalog. *)
Module events.

Inductive t :=
| PUSH_UNDO_STACK | PUSH_REDO_STACK | EMPTY_UNDO_STACK | EMPTY_REDO_STACK
| ADD_OBJECT | REMOVE_OBJECT
| LOAD_IMAGE | CLEAR_IMAGE | CLEAR_OBJECTS
| START_CROPPING | END_CROPPING
| FLIP_IMAGE | ROTATE_IMAGE
| START_FREE_DRAWING | END_FREE_DRAWING
| ACTIVATE_TEXT.

End events.

(** Modelled from the spec: [consts.commandNames], the operation catalog. *)
Module commands.

Inductive t :=
| LOAD_IMAGE | CLEAR_OBJECTS | ADD_OBJECT | REMOVE_OBJECT
| FLIP_IMAGE | ROTATE_IMAGE.

End commands.

(** Modelled from the spec: [consts.componentNames]. *)
Module compList.

Inductive t := MAIN | CROPPER | FREE_DRAWING | TEXT | ICON.

End compList.

(** ** JavaScript values *)

(** A canvas object, as far as the facade looks at it: [isType], [text],
    and the stamp that [tui.util.hasStamp] tests (the facade reads it and
    never sets it).  [oid] is the object's identity. *)
Record FabricObject := {
  oid : nat;
  otype : string;
  text : string;
  stamp : bool
}.

Record Image := { width : Z; height : Z }.

Record File := { name : string; blob : string }.

(** The values that cross the facade's interface.  Numbers are integers
    here (angles and pixel sizes); a plain object literal is a list of
    fields. *)
#[warnings="-register-all"]
Inductive Value :=
| VUndefined
| VNull
| VBool (b : bool)
| VNumber (n : Z)
| VString (s : string)
| VObject (o : FabricObject)
| VGroup (members : list nat)
| VImage (i : Image)
| VFile (f : File)
| VRecord (fields : list (string * Value)).

(** [!!v] *)
Definition truthy (v : Value) : bool :=
  match v with
  | VUndefined | VNull => false
  | VBool b => b
  | VNumber n => negb (n =? 0)%Z
  | VString s => negb (s =? "")
  | VObject _ | VGroup _ | VImage _ | VFile _ | VRecord _ => true
  end.

(** [a || b] *)
Definition js_or (a b : Value) : Value := if truthy a then a else b.

Fixpoint assoc (k : string) (fields : list (string * Value)) : Value :=
  match fields with
  | [] => VUndefined
  | (k', v) :: rest => if k =? k' then v else assoc k rest
  end.

(** [v.prop]: [None] stands for the TypeError of a property read on
    [null] or [undefined]; a missing property reads as [undefined]. *)
Definition get (v : Value) (prop : string) : option Value :=
  match v with
  | VUndefined | VNull => None
  | VImage i =>
      Some (if prop =? "width" then VNumber (width i)
            else if prop =? "height" then VNumber (height i)
            else VUndefined)
  | VFile f => Some (if prop =? "name" then VString (name f) else VUndefined)
  | VObject o =>
      Some (if prop =? "text" then VString (text o)
            else if prop =? "type" then VString (otype o)
            else VUndefined)
  | VRecord fields => Some (assoc prop fields)
  | VBool _ | VNumber _ | VString _ | VGroup _ => Some VUndefined
  end.

(** [obj.isType(t)] *)
Definition isType (o : FabricObject) (t : string) : bool := otype o =? t.

(** [tui.util.hasStamp(obj)] *)
Definition hasStamp (o : FabricObject) : bool := stamp o.

(** ** The canvas ([fabric.Canvas]) *)

(** A function object; [$.proxy] makes a new one at every call, and
    [canvas.off] compares by identity. *)
Definition Handler := nat.

Record Canvas := {
  objects : list FabricObject;
  activeObject : option nat;
  activeGroup : option (list nat);
  selection : bool;
  defaultCursor : string;
  mouseDown : list Handler
}.

(** What the canvas tells its listeners. *)
Inductive CanvasEvent :=
| ObjectAdded (target : FabricObject)
| ObjectRemoved (target : FabricObject).

(** ** Components and commands *)

(** Modelled from the spec: the cropped-image descriptor
    [{url, imageName}]. *)
Record Descriptor := { url : string; imageName : string }.

Definition descriptorValue (d : Descriptor) : Value :=
  VRecord [("url", VString (url d)); ("imageName", VString (imageName d))].

(** Modelled from the spec: the crop collaborator.  [region] holds the
    descriptor of the crop region once one is defined. *)
Record Cropper := { cropping : bool; region : option Descriptor }.

(** Modelled from the spec: the free-drawing collaborator. *)
Record FreeDrawing := { drawing : bool; brush : Value }.

(** Modelled from the spec: the main collaborator; the size of the canvas
    element as jQuery's [width()] and [height()] report it, the image with
    its name and orientation, and what the document was before each
    command still on the undo stack. *)
Record Snapshot := {
  snapImage : option Image;
  snapName : string;
  snapAngle : Z;
  snapFlipX : bool;
  snapFlipY : bool;
  snapObjects : list FabricObject
}.

Record Main := {
  canvasElementWidth : Z;
  canvasElementHeight : Z;
  canvasImage : option Image;
  currentImageName : string;
  angle : Z;
  flipSettingX : bool;
  flipSettingY : bool;
  history : list Snapshot
}.

Record Components := {
  main : Main;
  canvas : Canvas;
  cropper : Cropper;
  freeDrawing : FreeDrawing
}.

(** The closures the facade hands to a command. *)
Inductive Callback :=
| fire_proxy (eventName : events.t)   (* $.proxy(this.fire, this, eventName) *)
| callbackAfterImageLoading           (* $.proxy(this._callbackAfterImageLoading, this) *)
| loadImageUndoCallback.              (* function(oImage) {...} of loadImageFromURL *)

(** Modelled from the spec: a command, as the factory builds it. *)
Record Command := {
  kind : commands.t;
  args : list Value;
  executeCallback : option Callback;
  undoCallback : option Callback
}.

Inductive Direction := Execute | Undo.

(** Modelled from the spec: what lies behind the command factory and the
    text collaborator, whose code is not the facade's.  A command action
    works on the components; it fails ([None]) or gives the components it
    leaves, the values its callback is called with, and the events the
    canvas raised meanwhile.  A method of the text collaborator ([add],
    [change], [setStyle]) likewise changes the components and may make
    the canvas raise events. *)
Class Collaborators := {
  action : Direction -> Command -> Components ->
           option (Components * list Value * list CanvasEvent);
  textTool : string -> list Value -> Components ->
             Components * list CanvasEvent
}.

(** ** The editor *)

Record Invoker := {
  undoStack : list Command;
  redoStack : list Command;
  componentMap : Components
}.

(** What the facade's surroundings can see of a run: the notifications
    it fires, the calls it makes to the components, and (a history
    variable) every command action the invoker starts, with the mode the
    editor is in at that moment. *)
Inductive Trace :=
| Fired (eventName : events.t) (payload : list Value)
| Called (component : compList.t) (method : string) (arguments : list Value)
| Ran (d : Direction) (command : Command) (mode : states.t).

(** [_listener] is [undefined] until [startTextMode] first sets it;
    [proxies] counts the listeners made so far, and is the identity of the
    next one. *)
Record ImageEditor := {
  _invoker : Invoker;
  _state : states.t;
  _listener : option Handler;
  proxies : nat;
  trace : list Trace
}.

(** [this._canvas] is the main component's canvas. *)
Definition _canvas (e : ImageEditor) : Canvas := canvas (componentMap (_invoker e)).

Definition getCurrentState (e : ImageEditor) : states.t := _state e.

(** *** Field updates *)

Definition setInvoker (f : Invoker -> Invoker) (e : ImageEditor) : ImageEditor :=
  {| _invoker := f (_invoker e); _state := _state e; _listener := _listener e;
     proxies := proxies e; trace := trace e |}.

Definition setState (s : states.t) (e : ImageEditor) : ImageEditor :=
  {| _invoker := _invoker e; _state := s; _listener := _listener e;
     proxies := proxies e; trace := trace e |}.

Definition setListener (h : Handler) (e : ImageEditor) : ImageEditor :=
  {| _invoker := _invoker e; _state := _state e; _listener := Some h;
     proxies := S (proxies e); trace := trace e |}.

Definition record (t : Trace) (e : ImageEditor) : ImageEditor :=
  {| _invoker := _invoker e; _state := _state e; _listener := _listener e;
     proxies := proxies e; trace := trace e ++ [t] |}.

Definition setUndoStack (f : list Command -> list Command) (i : Invoker) : Invoker :=
  {| undoStack := f (undoStack i); redoStack := redoStack i; componentMap := componentMap i |}.

Definition setRedoStack (f : list Command -> list Command) (i : Invoker) : Invoker :=
  {| undoStack := undoStack i; redoStack := f (redoStack i); componentMap := componentMap i |}.

Definition setComponents (f : Components -> Components) (i : Invoker) : Invoker :=
  {| undoStack := undoStack i; redoStack := redoStack i; componentMap := f (componentMap i) |}.

Definition setCanvas (f : Canvas -> Canvas) (c : Components) : Components :=
  {| main := main c; canvas := f (canvas c); cropper := cropper c; freeDrawing := freeDrawing c |}.

Definition setCropper (f : Cropper -> Cropper) (c : Components) : Components :=
  {| main := main c; canvas := canvas c; cropper := f (cropper c); freeDrawing := freeDrawing c |}.

Definition setFreeDrawing (f : FreeDrawing -> FreeDrawing) (c : Components) : Components :=
  {| main := main c; canvas := canvas c; cropper := cropper c; freeDrawing := f (freeDrawing c) |}.

Definition onComponents (f : Components -> Components) : ImageEditor -> ImageEditor :=
  setInvoker (setComponents f).

Definition onCanvas (f : Canvas -> Canvas) : ImageEditor -> ImageEditor :=
  onComponents (setCanvas f).

(** *** Outcomes

    A method returns, or an exception leaves it; both with the state
    reached so far. *)

Inductive Exn :=
| TypeError      (* a property read on null or undefined, a bad argument *)
| ActionFailed   (* a command action that throws or rejects *)
| RangeError.    (* call stack exhausted *)

Inductive Outcome :=
| Done (e : ImageEditor)
| Raised (x : Exn) (e : ImageEditor).

Definition M := ImageEditor -> Outcome.

Definition final (o : Outcome) : ImageEditor :=
  match o with Done e | Raised _ e => e end.

Definition skip : M := Done.

Definition lift (f : ImageEditor -> ImageEditor) : M := fun e => Done (f e).

Definition seq (f g : M) : M :=
  fun e => match f e with Done e' => g e' | Raised x e' => Raised x e' end.

Notation "f ;; g" := (seq f g) (at level 61, right associativity).

(** [this.fire(eventName, ...payload)]: listeners of the editor are
    outside it; the notification is what is observed. *)
Definition fire (eventName : events.t) (payload : list Value) : M :=
  lift (record (Fired eventName payload)).

Definition call (component : compList.t) (method : string) (arguments : list Value) : M :=
  lift (record (Called component method arguments)).

(** *** Canvas operations (fabric) *)

Definition sameObject (a : nat) (o : FabricObject) : bool := Nat.eqb a (oid o).

(** [canvas.getActiveObject()] *)
Definition _canvas_getActiveObject (e : ImageEditor) : Value :=
  match activeObject (_canvas e) with
  | Some a =>
      match find (sameObject a) (objects (_canvas e)) with
      | Some o => VObject o
      | None => VNull
      end
  | None => VNull
  end.

(** [canvas.getActiveGroup()] *)
Definition _canvas_getActiveGroup (e : ImageEditor) : Value :=
  match activeGroup (_canvas e) with
  | Some g => VGroup g
  | None => VNull
  end.

Definition discardActive (c : Canvas) : Canvas :=
  {| objects := objects c; activeObject := None; activeGroup := None;
     selection := selection c; defaultCursor := defaultCursor c;
     mouseDown := mouseDown c |}.

(** [canvas.deactivateAll()] *)
Definition _canvas_deactivateAll : M := lift (onCanvas discardActive).

(** [canvas.renderAll()] paints; nothing of the model changes. *)
Definition _canvas_renderAll : M := skip.

Definition setSelection (b : bool) (c : Canvas) : Canvas :=
  {| objects := objects c; activeObject := activeObject c; activeGroup := activeGroup c;
     selection := b; defaultCursor := defaultCursor c; mouseDown := mouseDown c |}.

Definition setDefaultCursor (s : string) (c : Canvas) : Canvas :=
  {| objects := objects c; activeObject := activeObject c; activeGroup := activeGroup c;
     selection := selection c; defaultCursor := s; mouseDown := mouseDown c |}.

Definition setMouseDown (f : list Handler -> list Handler) (c : Canvas) : Canvas :=
  {| objects := objects c; activeObject := activeObject c; activeGroup := activeGroup c;
     selection := selection c; defaultCursor := defaultCursor c;
     mouseDown := f (mouseDown c) |}.

Definition setObjects (f : list FabricObject -> list FabricObject) (c : Canvas) : Canvas :=
  {| objects := f (objects c); activeObject := activeObject c; activeGroup := activeGroup c;
     selection := selection c; defaultCursor := defaultCursor c; mouseDown := mouseDown c |}.

Fixpoint removeFirst (h : Handler) (l : list Handler) : list Handler :=
  match l with
  | [] => []
  | h' :: r => if Nat.eqb h h' then r else h' :: removeFirst h r
  end.

(** [canvas.on('mouse:down', handler)] *)
Definition _canvas_on_mouseDown (handler : Handler) : M :=
  lift (onCanvas (setMouseDown (fun l => (l ++ [handler])%list))).

(** [canvas.off('mouse:down', handler)]: fabric drops that handler, and
    every handler of the event when [handler] is undefined. *)
Definition _canvas_off_mouseDown (handler : option Handler) : M :=
  lift (onCanvas (setMouseDown (fun l =>
    match handler with
    | Some h => removeFirst h l
    | None => []
    end))).

(** What [canvas.remove(obj)] does to the canvas: the object goes, and
    with it the selection when it was the active object. *)
Definition detach (o : FabricObject) (c : Canvas) : Canvas :=
  {| objects := filter (fun o' => negb (sameObject (oid o) o')) (objects c);
     activeObject := match activeObject c with
                     | Some a => if Nat.eqb a (oid o) then None else Some a
                     | None => None
                     end;
     activeGroup := activeGroup c;
     selection := selection c; defaultCursor := defaultCursor c;
     mouseDown := mouseDown c |}.

(** [canvas.forEachObject(callback)], as fabric 1.6.7 has it:

      for (var i = 0, len = objects.length; i < len; i++) {
        callback.call(context, objects[i], i, objects);
      }

    The length is read once and the array is the canvas's own, so that an
    object a callback removes is missing at the later steps: the objects
    behind it move up, and an index past the end reads [undefined]
    ([None]). *)
Fixpoint forEach (callback : option FabricObject -> M) (i n : nat) : M :=
  match n with
  | O => skip
  | S n' =>
      (fun e => callback (nth_error (objects (_canvas e)) i) e) ;;
      forEach callback (S i) n'
  end.

Definition _canvas_forEachObject (callback : option FabricObject -> M) : M :=
  fun e => forEach callback 0 (List.length (objects (_canvas e))) e.

(** ** The invoker's stacks *)

(** [_attachInvokerEvents]: each of the invoker's four stack events is
    passed on as the editor's own event of the same name. *)
Definition _attachInvokerEvents (eventName : events.t) : M := fire eventName [].

(** Modelled from the spec: [Invoker.pushUndoStack], a push with its
    notification. *)
Definition _invoker_pushUndoStack (command : Command) : M :=
  lift (setInvoker (setUndoStack (cons command))) ;;
  _attachInvokerEvents events.PUSH_UNDO_STACK.

(** Modelled from the spec: [Invoker.clearRedoStack] discards every entry
    and, if the stack was non-empty, fires the empty-stack notification. *)
Definition _invoker_clearRedoStack : M :=
  fun e =>
    match redoStack (_invoker e) with
    | [] => Done e
    | _ :: _ =>
        (lift (setInvoker (setRedoStack (fun _ => []))) ;;
         _attachInvokerEvents events.EMPTY_REDO_STACK) e
    end.

(** Modelled from the spec: [Invoker.clearUndoStack], likewise. *)
Definition _invoker_clearUndoStack : M :=
  fun e =>
    match undoStack (_invoker e) with
    | [] => Done e
    | _ :: _ =>
        (lift (setInvoker (setUndoStack (fun _ => []))) ;;
         _attachInvokerEvents events.EMPTY_UNDO_STACK) e
    end.

(** ** The command factory *)

(** Modelled from the spec: [commandFactory.create(name, ...args)]; the
    builder methods return the command itself. *)
Definition commandFactory_create (name : commands.t) (arguments : list Value) : Command :=
  {| kind := name; args := arguments; executeCallback := None; undoCallback := None |}.

Definition setExecuteCallback (callback : Callback) (command : Command) : Command :=
  {| kind := kind command; args := args command;
     executeCallback := Some callback; undoCallback := undoCallback command |}.

Definition setUndoCallback (callback : Callback) (command : Command) : Command :=
  {| kind := kind command; args := args command;
     executeCallback := executeCallback command; undoCallback := Some callback |}.

(** ** The facade's listeners *)

(** [_attachCanvasEvents], the 'object:added' handler. *)
Definition onObjectAdded (obj : FabricObject) : M :=
  if isType obj "cropzone" then skip
  else
    (if negb (hasStamp obj) then
       let command := commandFactory_create commands.ADD_OBJECT [VObject obj] in
       _invoker_pushUndoStack command ;;
       _invoker_clearRedoStack
     else skip) ;;
    fire events.ADD_OBJECT [VObject obj].

(** [_attachCanvasEvents], the 'object:removed' handler. *)
Definition onObjectRemoved (obj : FabricObject) : M :=
  fire events.REMOVE_OBJECT [VObject obj].

Definition _attachCanvasEvents (ev : CanvasEvent) : M :=
  match ev with
  | ObjectAdded obj => onObjectAdded obj
  | ObjectRemoved obj => onObjectRemoved obj
  end.

Fixpoint raiseAll (evs : list CanvasEvent) : M :=
  match evs with
  | [] => skip
  | ev :: r => _attachCanvasEvents ev ;; raiseAll r
  end.

(** [obj.remove()] *)
Definition remove (obj : FabricObject) : M :=
  lift (onCanvas (detach obj)) ;; _attachCanvasEvents (ObjectRemoved obj).

(** [_callbackAfterImageLoading(oImage)] *)
Definition _callbackAfterImageLoading (oImage : Value) : M :=
  fun e =>
    let mainComponent := main (componentMap (_invoker e)) in
    match get oImage "width", get oImage "height" with
    | Some w, Some h =>
        fire events.LOAD_IMAGE
          [VRecord [("originalWidth", w);
                    ("originalHeight", h);
                    ("currentWidth", VNumber (canvasElementWidth mainComponent));
                    ("currentHeight", VNumber (canvasElementHeight mainComponent))]] e
    | _, _ => Raised TypeError e
    end.

(** The first argument of a call; a missing one reads as [undefined]. *)
Definition arg0 (arguments : list Value) : Value := nth 0 arguments VUndefined.

(** Calling one of the facade's closures. *)
Definition applyCallback (callback : option Callback) (arguments : list Value) : M :=
  match callback with
  | None => skip
  | Some (fire_proxy eventName) => fire eventName arguments
  | Some callbackAfterImageLoading => _callbackAfterImageLoading (arg0 arguments)
  | Some loadImageUndoCallback =>
      let oImage := arg0 arguments in
      if truthy oImage then _callbackAfterImageLoading oImage
      else fire events.CLEAR_IMAGE []
  end.

Section Facade.

Context {collaborators : Collaborators}.

(** ** The invoker *)

(** Modelled from the spec: [Invoker.invoke(command)] runs the execute
    action, pushes the command on the undo stack, clears the redo stack,
    notifies the push, and calls the execute callback with the result.
    A failing action leaves the stacks as they were, and the failure goes
    to the caller. *)
Definition _invoker_invoke (command : Command) : M :=
  fun e =>
    match action Execute command (componentMap (_invoker e)) with
    | None => Raised ActionFailed (record (Ran Execute command (_state e)) e)
    | Some (components, result, raised) =>
        (lift (record (Ran Execute command (_state e))) ;;
         lift (onComponents (fun _ => components)) ;;
         raiseAll raised ;;
         lift (setInvoker (setUndoStack (cons command))) ;;
         _invoker_clearRedoStack ;;
         _attachInvokerEvents events.PUSH_UNDO_STACK ;;
         applyCallback (executeCallback command) result) e
    end.

Definition whenUndoStackEmpty (f : M) : M :=
  fun e => match undoStack (_invoker e) with [] => f e | _ :: _ => Done e end.

Definition whenRedoStackEmpty (f : M) : M :=
  fun e => match redoStack (_invoker e) with [] => f e | _ :: _ => Done e end.

(** Modelled from the spec: [Invoker.undo()] does nothing on an empty
    undo stack; otherwise it pops the top command, runs its undo action,
    pushes it on the redo stack and notifies, notifies an undo stack
    that became empty, and calls the undo callback with the result. *)
Definition _invoker_undo : M :=
  fun e =>
    match undoStack (_invoker e) with
    | [] => Done e
    | command :: rest =>
        match action Undo command (componentMap (_invoker e)) with
        | None => Raised ActionFailed (record (Ran Undo command (_state e)) e)
        | Some (components, result, raised) =>
            (lift (setInvoker (setUndoStack (fun _ => rest))) ;;
             lift (record (Ran Undo command (_state e))) ;;
             lift (onComponents (fun _ => components)) ;;
             raiseAll raised ;;
             lift (setInvoker (setRedoStack (cons command))) ;;
             _attachInvokerEvents events.PUSH_REDO_STACK ;;
             whenUndoStackEmpty (_attachInvokerEvents events.EMPTY_UNDO_STACK) ;;
             applyCallback (undoCallback command) result) e
        end
    end.

(** Modelled from the spec: [Invoker.redo()], the mirror image, which
    replays the execute action and calls the execute callback. *)
Definition _invoker_redo : M :=
  fun e =>
    match redoStack (_invoker e) with
    | [] => Done e
    | command :: rest =>
        match action Execute command (componentMap (_invoker e)) with
        | None => Raised ActionFailed (record (Ran Execute command (_state e)) e)
        | Some (components, result, raised) =>
            (lift (setInvoker (setRedoStack (fun _ => rest))) ;;
             lift (record (Ran Execute command (_state e))) ;;
             lift (onComponents (fun _ => components)) ;;
             raiseAll raised ;;
             lift (setInvoker (setUndoStack (cons command))) ;;
             _attachInvokerEvents events.PUSH_UNDO_STACK ;;
             whenRedoStackEmpty (_attachInvokerEvents events.EMPTY_REDO_STACK) ;;
             applyCallback (executeCallback command) result) e
        end
    end.

(** ** The components, as the facade calls them *)

(** Modelled from the spec: [cropper.start()]. *)
Definition cropper_start : M :=
  call compList.CROPPER "start" [] ;;
  lift (onComponents (setCropper (fun c => {| cropping := true; region := region c |}))).

(** Modelled from the spec: what [cropper.end(isApplying)] returns,
    nothing, or the descriptor when [isApplying] holds and a crop region
    was defined. *)
Definition cropper_end_data (isApplying : Value) (e : ImageEditor) : Value :=
  if truthy isApplying then
    match region (cropper (componentMap (_invoker e))) with
    | Some descriptor => descriptorValue descriptor
    | None => VUndefined
    end
  else VUndefined.

(** Modelled from the spec: [cropper.end(isApplying)], its effect. *)
Definition cropper_end (isApplying : Value) : M :=
  call compList.CROPPER "end" [isApplying] ;;
  lift (onComponents (setCropper (fun _ => {| cropping := false; region := None |}))).

(** Modelled from the spec: [freeDrawing.start(setting)]. *)
Definition freeDrawing_start (setting : Value) : M :=
  call compList.FREE_DRAWING "start" [setting] ;;
  lift (onComponents (setFreeDrawing (fun d =>
    {| drawing := true; brush := js_or setting (brush d) |}))).

(** Modelled from the spec: [freeDrawing.end()]. *)
Definition freeDrawing_end : M :=
  call compList.FREE_DRAWING "end" [] ;;
  lift (onComponents (setFreeDrawing (fun d => {| drawing := false; brush := brush d |}))).

(** A call to the text collaborator. *)
Definition text_call (method : string) (arguments : list Value) : M :=
  call compList.TEXT method arguments ;;
  (fun e =>
     let '(components, raised) := textTool method arguments (componentMap (_invoker e)) in
     (lift (onComponents (fun _ => components)) ;; raiseAll raised) e).

(** ** The facade ([ImageEditor.prototype]) *)

(** [deactivateAll()] *)
Definition deactivateAll : M :=
  _canvas_deactivateAll ;;
  _canvas_renderAll.

(** [endTextMode()] *)
Definition endTextMode : M :=
  (fun e =>
     if states.eqb (getCurrentState e) states.TEXT
     then Done (setState states.NORMAL e)
     else Done e) ;;
  _canvas_forEachObject (fun obj =>
    match obj with
    | Some obj => if isType obj "text" && (text obj =? "") then remove obj else skip
    | None => Raised TypeError
    end) ;;
  lift (onCanvas (setSelection true)) ;;
  lift (onCanvas (setDefaultCursor "default")) ;;
  (fun e => _canvas_off_mouseDown (_listener e) e).

(** [endFreeDrawing()] *)
Definition endFreeDrawing : M :=
  fun e =>
    if negb (states.eqb (getCurrentState e) states.FREE_DRAWING) then Done e
    else
      (freeDrawing_end ;;
       lift (setState states.NORMAL) ;;
       fire events.END_FREE_DRAWING []) e.

(** [endAll], [endCropping], [loadImageFromURL] and [execute] call one
    another in a cycle.  Their bodies are first written over the call
    that closes the cycle, [endAll_rec]. *)
Section Cycle.

Variable endAll_rec : M.

(** [execute(command)] *)
Definition execute_body (command : Command) : M :=
  endAll_rec ;;
  _invoker_invoke command.

(** [loadImageFromURL(url, imageName)] *)
Definition loadImageFromURL_body (url imageName : Value) : M :=
  fun e =>
    if negb (truthy imageName) || negb (truthy url) then Done e
    else
      let callback := callbackAfterImageLoading in
      let command := commandFactory_create commands.LOAD_IMAGE [imageName; url] in
      let command := setUndoCallback loadImageUndoCallback
                       (setExecuteCallback callback command) in
      execute_body command e.

(** [endCropping(isApplying)] *)
Definition endCropping_body (isApplying : Value) : M :=
  fun e =>
    if negb (states.eqb (getCurrentState e) states.CROP) then Done e
    else
      let data := cropper_end_data isApplying e in
      (lift (setState states.NORMAL) ;;
       cropper_end isApplying ;;
       fire events.END_CROPPING [] ;;
       (if truthy data then
          match get data "url", get data "imageName" with
          | Some data_url, Some data_imageName =>
              loadImageFromURL_body data_url data_imageName
          | _, _ => Raised TypeError
          end
        else skip)) e.

(** [endAll()] *)
Definition endAll_body : M :=
  endTextMode ;;
  endFreeDrawing ;;
  endCropping_body VUndefined ;;
  deactivateAll ;;
  lift (setState states.NORMAL).

End Cycle.

(** The cycle unrolled [depth] times; a call deeper than that exhausts
    the stack.  Any depth from 1 on gives the same [endAll], which
    satisfies the equation of its source text and never exhausts the
    stack ([endAll_unfold], [endAll_depth_enough], [endAll_cases]
    below): [endAll] calls [endCropping] without an argument, and the
    cropper then returns nothing to load. *)
Fixpoint endAll_depth (depth : nat) : M :=
  match depth with
  | O => Raised RangeError
  | S d => endAll_body (endAll_depth d)
  end.

Definition endAll : M := endAll_depth 2.

Definition execute : Command -> M := execute_body endAll.

Definition loadImageFromURL : Value -> Value -> M := loadImageFromURL_body endAll.

Definition endCropping : Value -> M := endCropping_body endAll.

(** [clearObjects()] *)
Definition clearObjects : M :=
  let command := commandFactory_create commands.CLEAR_OBJECTS [] in
  let callback := fire_proxy events.CLEAR_OBJECTS in
  execute (setExecuteCallback callback command).

(** [undo()] *)
Definition undo : M :=
  endAll ;;
  _invoker_undo.

(** [redo()] *)
Definition redo : M :=
  endAll ;;
  _invoker_redo.

(** [URL.createObjectURL(file)] *)
Definition createObjectURL (f : File) : string := "blob:" ++ blob f.

(** [loadImageFromFile(imgFile, imageName)] *)
Definition loadImageFromFile (imgFile imageName : Value) : M :=
  fun e =>
    if negb (truthy imgFile) then Done e
    else
      match imgFile with
      | VFile f =>
          loadImageFromURL
            (VString (createObjectURL f))
            (js_or imageName (VString (name f))) e
      | _ => Raised TypeError e
      end.

(** [startCropping()] *)
Definition startCropping : M :=
  fun e =>
    if states.eqb (getCurrentState e) states.CROP then Done e
    else
      (endAll ;;
       lift (setState states.CROP) ;;
       cropper_start ;;
       fire events.START_CROPPING []) e.

(** [_flip(type)] *)
Definition _flip (type : string) : M :=
  let callback := fire_proxy events.FLIP_IMAGE in
  let command := commandFactory_create commands.FLIP_IMAGE [VString type] in
  execute (setUndoCallback callback (setExecuteCallback callback command)).

Definition flipX : M := _flip "flipX".
Definition flipY : M := _flip "flipY".
Definition resetFlip : M := _flip "reset".

(** [_rotate(type, angle)] *)
Definition _rotate (type : string) (angle : Value) : M :=
  let callback := fire_proxy events.ROTATE_IMAGE in
  let command := commandFactory_create commands.ROTATE_IMAGE [VString type; angle] in
  execute (setUndoCallback callback (setExecuteCallback callback command)).

Definition rotate (angle : Value) : M := _rotate "rotate" angle.
Definition setAngle (angle : Value) : M := _rotate "setAngle" angle.

(** [startFreeDrawing(setting)] *)
Definition startFreeDrawing (setting : Value) : M :=
  fun e =>
    if states.eqb (getCurrentState e) states.FREE_DRAWING then Done e
    else
      (endAll ;;
       freeDrawing_start setting ;;
       lift (setState states.FREE_DRAWING) ;;
       fire events.START_FREE_DRAWING []) e.

(** [startTextMode()] *)
Definition startTextMode : M :=
  endAll ;;
  (fun e =>
     if states.eqb (getCurrentState e) states.TEXT then Done e
     else
       (lift (setState states.TEXT) ;;
        (fun e1 => Done (setListener (proxies e1) e1)) ;;
        lift (onCanvas (setSelection false)) ;;
        lift (onCanvas (setDefaultCursor "text")) ;;
        (fun e1 =>
           match _listener e1 with
           | Some listener => _canvas_on_mouseDown listener e1
           | None => Done e1
           end)) e).

(** [addText(text, settings)] *)
Definition addText (text settings : Value) : M :=
  (fun e =>
     if negb (states.eqb (getCurrentState e) states.TEXT)
     then Done (setState states.TEXT e)
     else Done e) ;;
  text_call "add" [js_or text (VString ""); js_or settings (VRecord [])].

(** [changeText(text)] *)
Definition changeText (text : Value) : M :=
  fun e =>
    let activeObj := _canvas_getActiveObject e in
    if negb (states.eqb (getCurrentState e) states.TEXT) || negb (truthy activeObj)
    then Done e
    else text_call "change" [activeObj; text] e.

(** [changeTextStyle(styleObj)] *)
Definition changeTextStyle (styleObj : Value) : M :=
  fun e =>
    let activeObj := _canvas_getActiveObject e in
    if negb (states.eqb (getCurrentState e) states.TEXT) || negb (truthy activeObj)
    then Done e
    else text_call "setStyle" [activeObj; styleObj] e.

(** [removeActiveObject()] *)
Definition removeActiveObject : M :=
  fun e =>
    let target := js_or (_canvas_getActiveObject e) (_canvas_getActiveGroup e) in
    let command := commandFactory_create commands.REMOVE_OBJECT [target] in
    execute command e.

(** [clearUndoStack()], [clearRedoStack()] *)
Definition clearUndoStack : M := _invoker_clearUndoStack.
Definition clearRedoStack : M := _invoker_clearRedoStack.

(** The public mutating methods of the facade. *)
Inductive Mutation :=
| ClearObjects
| FlipX
| FlipY
| ResetFlip
| Rotate (angle : Value)
| SetAngle (angle : Value)
| RemoveActiveObject
| LoadImageFromURL (url imageName : Value)
| LoadImageFromFile (imgFile imageName : Value).

Definition perform (m : Mutation) : M :=
  match m with
  | ClearObjects => clearObjects
  | FlipX => flipX
  | FlipY => flipY
  | ResetFlip => resetFlip
  | Rotate angle => rotate angle
  | SetAngle angle => setAngle angle
  | RemoveActiveObject => removeActiveObject
  | LoadImageFromURL url imageName => loadImageFromURL url imageName
  | LoadImageFromFile imgFile imageName => loadImageFromFile imgFile imageName
  end.

End Facade.

(** ** A sample world

    One instance of the collaborators, for the examples: every command
    remembers the document it found, and its undo action puts that
    document back. *)

(** Modelled from the spec: loading succeeds with an image handle or
    fails with [null]; here a URL loads when it names a blob or a web
    resource. *)
Definition imageAt (u : string) : option Image :=
  if String.prefix "blob:" u || String.prefix "http" u
  then Some {| width := 800; height := 600 |}
  else None.

Definition snapshot (c : Components) : Snapshot :=
  {| snapImage := canvasImage (main c); snapName := currentImageName (main c);
     snapAngle := angle (main c); snapFlipX := flipSettingX (main c);
     snapFlipY := flipSettingY (main c); snapObjects := objects (canvas c) |}.

Definition setMain (f : Main -> Main) (c : Components) : Components :=
  {| main := f (main c); canvas := canvas c; cropper := cropper c; freeDrawing := freeDrawing c |}.

Definition remember (c : Components) : Components :=
  setMain (fun m =>
    {| canvasElementWidth := canvasElementWidth m; canvasElementHeight := canvasElementHeight m;
       canvasImage := canvasImage m; currentImageName := currentImageName m;
       angle := angle m; flipSettingX := flipSettingX m; flipSettingY := flipSettingY m;
       history := snapshot c :: history m |}) c.

Definition restore (s : Snapshot) (rest : list Snapshot) (c : Components) : Components :=
  setCanvas (setObjects (fun _ => snapObjects s))
    (setMain (fun m =>
       {| canvasElementWidth := canvasElementWidth m; canvasElementHeight := canvasElementHeight m;
          canvasImage := snapImage s; currentImageName := snapName s;
          angle := snapAngle s; flipSettingX := snapFlipX s; flipSettingY := snapFlipY s;
          history := rest |}) c).

Definition orient (a : Z) (fx fy : bool) (c : Components) : Components :=
  setMain (fun m =>
    {| canvasElementWidth := canvasElementWidth m; canvasElementHeight := canvasElementHeight m;
       canvasImage := canvasImage m; currentImageName := currentImageName m;
       angle := a; flipSettingX := fx; flipSettingY := fy; history := history m |}) c.

Definition show (i : Image) (nm : string) (c : Components) : Components :=
  setMain (fun m =>
    {| canvasElementWidth := canvasElementWidth m; canvasElementHeight := canvasElementHeight m;
       canvasImage := Some i; currentImageName := nm;
       angle := angle m; flipSettingX := flipSettingX m; flipSettingY := flipSettingY m;
       history := history m |}) c.

Definition flipSetting (m : Main) : list Value :=
  [VRecord [("flipX", VBool (flipSettingX m)); ("flipY", VBool (flipSettingY m))];
   VNumber (angle m)].

(** Modelled from the spec (design notes): an object that a command has
    put on the canvas is marked as managed, so that the 'object:added'
    handler does not record it again. *)
Definition stamped (o : FabricObject) : FabricObject :=
  {| oid := oid o; otype := otype o; text := text o; stamp := true |}.

(** Modelled from the spec: the execute actions of the catalog. *)
Definition sample_execute (command : Command) (c : Components)
  : option (Components * list Value * list CanvasEvent) :=
  let m := main c in
  match kind command, args command with
  | commands.LOAD_IMAGE, [VString nm; VString u] =>
      match imageAt u with
      | Some i => Some (show i nm (remember c), [VImage i], [])
      | None => Some (remember c, [VNull], [])
      end
  | commands.CLEAR_OBJECTS, [] =>
      Some (setCanvas (setObjects (fun _ => [])) (remember c), [],
            map ObjectRemoved (objects (canvas c)))
  | commands.ADD_OBJECT, [VObject o] =>
      Some (setCanvas (setObjects (fun l => (l ++ [stamped o])%list)) c,
            [VObject (stamped o)], [ObjectAdded (stamped o)])
  | commands.REMOVE_OBJECT, [VObject o] =>
      Some (setCanvas (detach o) c, [VObject o], [ObjectRemoved o])
  | commands.FLIP_IMAGE, [VString t] =>
      let c' :=
        if t =? "flipX" then orient (angle m) (negb (flipSettingX m)) (flipSettingY m) (remember c)
        else if t =? "flipY" then orient (angle m) (flipSettingX m) (negb (flipSettingY m)) (remember c)
        else orient (angle m) false false (remember c) in
      Some (c', flipSetting (main c'), [])
  | commands.ROTATE_IMAGE, [VString t; VNumber a] =>
      let a' := if t =? "rotate" then (angle m + a)%Z else a in
      Some (orient a' (flipSettingX m) (flipSettingY m) (remember c), [VNumber a'], [])
  | _, _ => None
  end.

(** Modelled from the spec: the undo actions.  Undoing add-object removes
    the object and undoing remove-object puts it back; the others restore
    the document to what it was before the execute action, and undoing a
    load gives the previous image, or [null] when there was none. *)
Definition sample_undo (command : Command) (c : Components)
  : option (Components * list Value * list CanvasEvent) :=
  match kind command, args command with
  | commands.ADD_OBJECT, [VObject o] =>
      Some (setCanvas (detach o) c, [VObject o],
            if existsb (sameObject (oid o)) (objects (canvas c))
            then [ObjectRemoved o] else [])
  | commands.REMOVE_OBJECT, [VObject o] =>
      Some (setCanvas (setObjects (fun l => (l ++ [stamped o])%list)) c,
            [VObject (stamped o)], [ObjectAdded (stamped o)])
  | _, _ =>
      match history (main c) with
      | [] => None
      | s :: rest =>
          let c' := restore s rest c in
          let result :=
            match kind command with
            | commands.LOAD_IMAGE =>
                [match snapImage s with Some i => VImage i | None => VNull end]
            | commands.FLIP_IMAGE => flipSetting (main c')
            | commands.ROTATE_IMAGE => [VNumber (snapAngle s)]
            | _ => []
            end in
          Some (c', result, [])
      end
  end.

Definition freshOid (l : list FabricObject) : nat :=
  S (fold_right Nat.max 0 (map oid l)).

(** Modelled from the spec: the text collaborator; [add] puts a new text
    object on the canvas, [change] sets the text of one. *)
Definition sample_textTool (method : string) (arguments : list Value) (c : Components)
  : Components * list CanvasEvent :=
  if method =? "add" then
    let t := match arguments with VString s :: _ => s | _ => "" end in
    let obj := {| oid := freshOid (objects (canvas c)); otype := "text";
                  text := t; stamp := false |} in
    (setCanvas (setObjects (fun l => (l ++ [obj])%list)) c, [ObjectAdded obj])
  else if method =? "change" then
    match arguments with
    | [VObject o; VString t] =>
        (setCanvas (setObjects (map (fun o' =>
           if sameObject (oid o) o'
           then {| oid := oid o'; otype := otype o'; text := t; stamp := stamp o' |}
           else o'))) c, [])
    | _ => (c, [])
    end
  else (c, []).

#[local] Instance sample : Collaborators :=
  {| action := fun d => match d with Execute => sample_execute | Undo => sample_undo end;
     textTool := sample_textTool |}.

(** A fresh editor, as [init] leaves it, on a canvas element of the
    given size. *)
Definition emptyCanvas : Canvas :=
  {| objects := []; activeObject := None; activeGroup := None;
     selection := true; defaultCursor := "default"; mouseDown := [] |}.

Definition init (w h : Z) : ImageEditor :=
  {| _invoker :=
       {| undoStack := []; redoStack := [];
          componentMap :=
            {| main := {| canvasElementWidth := w; canvasElementHeight := h;
                          canvasImage := None; currentImageName := "";
                          angle := 0; flipSettingX := false; flipSettingY := false;
                          history := [] |};
               canvas := emptyCanvas;
               cropper := {| cropping := false; region := None |};
               freeDrawing := {| drawing := false; brush := VUndefined |} |} |};
     _state := states.NORMAL;
     _listener := None;
     proxies := 0;
     trace := [] |}.

(** *** Some editor states *)

(** An arrow drawn on the image, and a text object whose text is empty. *)
Definition arrow : FabricObject :=
  {| oid := 1; otype := "path"; text := ""; stamp := true |}.

Definition draft : FabricObject :=
  {| oid := 2; otype := "text"; text := ""; stamp := true |}.

(** Crop mode: the cropper is started and the arrow is selected. *)
Definition cropSession : ImageEditor :=
  {| _invoker :=
       {| undoStack := []; redoStack := [];
          componentMap :=
            {| main := main (componentMap (_invoker (init 300 200)));
               canvas := {| objects := [arrow]; activeObject := Some 1;
                            activeGroup := None; selection := false;
                            defaultCursor := "crosshair"; mouseDown := [] |};
               cropper := {| cropping := true; region := None |};
               freeDrawing := {| drawing := false; brush := VUndefined |} |} |};
     _state := states.CROP;
     _listener := None;
     proxies := 0;
     trace := [] |}.

(** Crop mode with a crop region drawn. *)
Definition cropRegion : Descriptor :=
  {| url := "blob:cropped"; imageName := "lena" |}.

Definition cropSessionWithRegion : ImageEditor :=
  onComponents (setCropper (fun _ => {| cropping := true; region := Some cropRegion |}))
    cropSession.

(** Text mode as [startTextMode] leaves it, with the draft being edited. *)
Definition textSession : ImageEditor :=
  {| _invoker :=
       {| undoStack := []; redoStack := [];
          componentMap :=
            {| main := main (componentMap (_invoker (init 300 200)));
               canvas := {| objects := [arrow; draft]; activeObject := Some 2;
                            activeGroup := None; selection := false;
                            defaultCursor := "text"; mouseDown := [0] |};
               cropper := {| cropping := false; region := None |};
               freeDrawing := {| drawing := false; brush := VUndefined |} |} |};
     _state := states.TEXT;
     _listener := Some 0;
     proxies := 1;
     trace := [] |}.

(** Normal mode with the draft on the canvas; [redo()] can put an empty
    text object there ([empty_text_outside_text_mode] below). *)
Definition idleWithDraft : ImageEditor :=
  onCanvas (setObjects (fun _ => [arrow; draft])) (init 300 200).

(** A rotation that was undone: it waits on the redo stack. *)
Definition rotation : Command :=
  setUndoCallback (fire_proxy events.ROTATE_IMAGE)
    (setExecuteCallback (fire_proxy events.ROTATE_IMAGE)
       (commandFactory_create commands.ROTATE_IMAGE [VString "rotate"; VNumber 10])).

Definition afterUndo : ImageEditor :=
  setInvoker (setRedoStack (fun _ => [rotation])) (init 300 200).

(** One image loaded, and a second one loaded over it. *)
Definition loaded : ImageEditor :=
  Eval vm_compute in
    final (loadImageFromURL (VString "http://url/testImage.png") (VString "lena")
             (init 300 200)).

Definition reloaded : ImageEditor :=
  Eval vm_compute in
    final (loadImageFromURL (VString "http://url/other.png") (VString "mandrill") loaded).

(** Two text objects, the first of them empty: what [addText('')] and
    then [addText('hello')] leave of a fresh editor. *)
Definition twoTexts : ImageEditor :=
  Eval vm_compute in
    final (addText (VString "hello") VUndefined
             (final (addText (VString "") VUndefined (init 300 200)))).

(** Crop mode with the draft on the canvas before the arrow. *)
Definition cropWithDraft : ImageEditor :=
  onCanvas (setObjects (fun _ => [draft; arrow])) cropSession.

(** The crop session after [endAll], and a fresh editor after
    [startCropping]. *)
Definition exitedCrop : ImageEditor :=
  Eval vm_compute in final (endAll cropSession).

Definition startedCrop : ImageEditor :=
  Eval vm_compute in final (startCropping (init 300 200)).

(** Where the throw of [endAll] leaves that crop session. *)
Definition cropThrown : ImageEditor :=
  Eval vm_compute in final (endAll cropWithDraft).

(** ** Vocabulary of the properties *)

Definition notRan (t : Trace) : Prop :=
  match t with Ran _ _ _ => False | _ => True end.

(** The trace of [e'] continues that of [e] with entries that satisfy [P]. *)
Definition extends (P : Trace -> Prop) (e e' : ImageEditor) : Prop :=
  exists new, trace e' = (trace e ++ new)%list /\ Forall P new.

(** The entries a run may add when every command action it runs is run
    in Normal mode. *)
Definition ranInNormal (t : Trace) : Prop :=
  match t with Ran _ _ mode => mode = states.NORMAL | _ => True end.

(** A listener of the canvas changes the stacks and fires, nothing else. *)
Record hushed (e e' : ImageEditor) : Prop := {
  hushed_components : componentMap (_invoker e') = componentMap (_invoker e);
  hushed_state : _state e' = _state e;
  hushed_listener : _listener e' = _listener e;
  hushed_trace : extends notRan e e'
}.

(** An exit step changes neither stack and runs no command action. *)
Record undisturbed (e e' : ImageEditor) : Prop := {
  same_undoStack : undoStack (_invoker e') = undoStack (_invoker e);
  same_redoStack : redoStack (_invoker e') = redoStack (_invoker e);
  same_main : main (componentMap (_invoker e')) = main (componentMap (_invoker e));
  no_action : extends notRan e e'
}.

(** The callback [endTextMode] gives to [forEachObject]. *)
Definition sweepEmptyText (obj : option FabricObject) : M :=
  match obj with
  | Some obj => if isType obj "text" && (text obj =? "") then remove obj else skip
  | None => Raised TypeError
  end.

(** After [cropper.end] and the notification, before a chained load. *)
Definition cropEnded (isApplying : Value) (e : ImageEditor) : ImageEditor :=
  record (Fired events.END_CROPPING [])
    (onComponents (setCropper (fun _ => {| cropping := false; region := None |}))
       (record (Called compList.CROPPER "end" [isApplying])
          (setState states.NORMAL e))).

(** The command that [loadImageFromURL] builds. *)
Definition loadImageCommand (url imageName : Value) : Command :=
  setUndoCallback loadImageUndoCallback
    (setExecuteCallback callbackAfterImageLoading
       (commandFactory_create commands.LOAD_IMAGE [imageName; url])).

(** The payload of the loadImage notification. *)
Definition dimension (i : Image) (m : Main) : Value :=
  VRecord [("originalWidth", VNumber (width i));
           ("originalHeight", VNumber (height i));
           ("currentWidth", VNumber (canvasElementWidth m));
           ("currentHeight", VNumber (canvasElementHeight m))].


(** ** What the exit steps leave, written out *)

(** The test of the callback [endTextMode] gives to [forEachObject]. *)
Definition emptyText (o : FabricObject) : bool :=
  isType o "text" && (text o =? "").

(** An object with identity [a] goes when the walk meets an empty text
    object of that identity. *)
Definition sweptAway (l : list FabricObject) (a : nat) : bool :=
  existsb (fun d => emptyText d && Nat.eqb (oid d) a) l.

(** The removeObject notifications of a walk over [l]. *)
Definition removals (l : list FabricObject) : list Trace :=
  map (fun o => Fired events.REMOVE_OBJECT [VObject o]) (filter emptyText l).

Definition sweptCanvas (l : list FabricObject) (c : Canvas) : Canvas :=
  {| objects := filter (fun o => negb (sweptAway l (oid o))) (objects c);
     activeObject := match activeObject c with
                     | Some a => if sweptAway l a then None else Some a
                     | None => None
                     end;
     activeGroup := activeGroup c;
     selection := selection c; defaultCursor := defaultCursor c;
     mouseDown := mouseDown c |}.

Definition recordAll (ts : list Trace) (e : ImageEditor) : ImageEditor :=
  {| _invoker := _invoker e; _state := _state e; _listener := _listener e;
     proxies := proxies e; trace := trace e ++ ts |}.

(** The editor after the objects [l] met [sweepEmptyText], one after the
    other. *)
Definition swept (l : list FabricObject) (e : ImageEditor) : ImageEditor :=
  recordAll (removals l) (onCanvas (sweptCanvas l) e).

(** What [canvas.off('mouse:down', handler)] leaves of the listeners. *)
Definition detached (handler : option Handler) (l : list Handler) : list Handler :=
  match handler with
  | Some h => removeFirst h l
  | None => []
  end.

(** The walk of [endTextMode] comes to its end when no empty text object
    stands before another object: nothing is removed before the last
    step. *)
Definition walkable (l : list FabricObject) : bool :=
  forallb (fun o => negb (emptyText o)) (removelast l).

(** The last object, the only one such a walk can remove. *)
Definition lastOnly (l : list FabricObject) : list FabricObject :=
  match rev l with
  | o :: _ => [o]
  | [] => []
  end.

(** The editor after the first statement of [endTextMode]. *)
Definition textLeft (e : ImageEditor) : ImageEditor :=
  if states.eqb (_state e) states.TEXT then setState states.NORMAL e else e.

(** The editor [endTextMode] returns, when it returns. *)
Definition afterEndTextMode (e : ImageEditor) : ImageEditor :=
  onCanvas (setMouseDown (detached (_listener e)))
    (onCanvas (setDefaultCursor "default")
       (onCanvas (setSelection true)
          (swept (lastOnly (objects (_canvas e))) (textLeft e)))).

(** The editor [endFreeDrawing] returns. *)
Definition afterEndFreeDrawing (e : ImageEditor) : ImageEditor :=
  if states.eqb (_state e) states.FREE_DRAWING then
    record (Fired events.END_FREE_DRAWING [])
      (setState states.NORMAL
         (onComponents (setFreeDrawing (fun d => {| drawing := false; brush := brush d |}))
            (record (Called compList.FREE_DRAWING "end" []) e)))
  else e.

(** The editor [endAll] returns, when it returns. *)
Definition afterEndAll (e : ImageEditor) : ImageEditor :=
  let e2 := afterEndFreeDrawing (afterEndTextMode e) in
  let e3 := if states.eqb (_state e2) states.CROP then cropEnded VUndefined e2 else e2 in
  setState states.NORMAL (onCanvas discardActive e3).

(** The editor [startTextMode] returns, from the editor [endAll] left. *)
Definition enteredText (e0 : ImageEditor) : ImageEditor :=
  onCanvas (setMouseDown (fun l => (l ++ [proxies e0])%list))
    (onCanvas (setDefaultCursor "text")
       (onCanvas (setSelection false)
          (setListener (proxies e0) (setState states.TEXT e0)))).

(** ** More vocabulary *)

(** An entry that is no command action and neither of the two
    notifications about the image. *)
Definition notAboutImage (t : Trace) : Prop :=
  match t with
  | Fired events.LOAD_IMAGE _ | Fired events.CLEAR_IMAGE _ | Ran _ _ _ => False
  | _ => True
  end.

(** [f] relates every editor to the one it ends in, returning or not. *)
Definition keeps (R : ImageEditor -> ImageEditor -> Prop) (f : M) : Prop :=
  forall e, R e (final (f e)).

(** The mode is as it was, and the components are related by [Q]. *)
Definition settled (Q : Components -> Components -> Prop) (e e' : ImageEditor) : Prop :=
  _state e' = _state e /\ Q (componentMap (_invoker e)) (componentMap (_invoker e')).

(** The tools that are started are those of the current mode. *)
Definition toolsAgree (e : ImageEditor) : Prop :=
  cropping (cropper (componentMap (_invoker e))) = states.eqb (_state e) states.CROP /\
  drawing (freeDrawing (componentMap (_invoker e))) =
    states.eqb (_state e) states.FREE_DRAWING.

(** From [c] to [c'] the cropper and the brush were neither started nor
    stopped. *)
Definition sameTools (c c' : Components) : Prop :=
  cropping (cropper c') = cropping (cropper c) /\
  drawing (freeDrawing c') = drawing (freeDrawing c).

(** The editor [startCropping] returns, from the editor [endAll] left. *)
Definition startedCropping (e0 : ImageEditor) : ImageEditor :=
  record (Fired events.START_CROPPING [])
    (onComponents (setCropper (fun c => {| cropping := true; region := region c |}))
       (record (Called compList.CROPPER "start" [])
          (setState states.CROP e0))).

(** The editor [startFreeDrawing] returns, from the editor [endAll] left. *)
Definition startedFreeDrawing (setting : Value) (e0 : ImageEditor) : ImageEditor :=
  record (Fired events.START_FREE_DRAWING [])
    (setState states.FREE_DRAWING
       (onComponents (setFreeDrawing (fun d =>
          {| drawing := true; brush := js_or setting (brush d) |}))
          (record (Called compList.FREE_DRAWING "start" [setting]) e0))).

(** What the facade's listeners announce for a canvas event. *)
Definition announcement (ev : CanvasEvent) : list Trace :=
  match ev with
  | ObjectAdded obj =>
      if isType obj "cropzone" then [] else [Fired events.ADD_OBJECT [VObject obj]]
  | ObjectRemoved obj => [Fired events.REMOVE_OBJECT [VObject obj]]
  end.

(** An event that is not the arrival of a new object: a removal, a crop
    zone, or an object that carries the stamp. *)
Definition managed (ev : CanvasEvent) : bool :=
  match ev with
  | ObjectAdded obj => isType obj "cropzone" || hasStamp obj
  | ObjectRemoved _ => true
  end.

(** ** The keyboard *)

Record KeyboardEvent := { ctrlKey : bool; metaKey : bool; keyCode : nat }.

Section Entries.

Context {collaborators : Collaborators}.

(** [consts.keyCodes] is not part of the facade's file; its two entries
    are taken as they come. *)
Variables keyCodes_Z keyCodes_Y : nat.

(** [_onKeyDown(e)] *)
Definition _onKeyDown (e : KeyboardEvent) : M :=
  (if (ctrlKey e || metaKey e) && Nat.eqb (keyCode e) keyCodes_Z then undo else skip) ;;
  (if (ctrlKey e || metaKey e) && Nat.eqb (keyCode e) keyCodes_Y then redo else skip).

(** The public methods that work through the mode machine, the invoker
    or the text component, [addText] apart.  ([setBrush], [addIcon] and
    [changeIconColor] pass their arguments to a component that is not
    part of the facade's file, and [getCurrentState], [toDataURL] and
    [getImageName] only read; they have no entry.) *)
Inductive Entry :=
| StartCropping
| EndCropping (isApplying : Value)
| StartFreeDrawing (setting : Value)
| EndFreeDrawing
| StartTextMode
| EndTextMode
| EndAll
| DeactivateAll
| UndoEntry
| RedoEntry
| ExecuteEntry (command : Command)
| MutationEntry (m : Mutation)
| ChangeText (text : Value)
| ChangeTextStyle (styleObj : Value)
| ClearUndoStack
| ClearRedoStack.

Definition enter (c : Entry) : M :=
  match c with
  | StartCropping => startCropping
  | EndCropping isApplying => endCropping isApplying
  | StartFreeDrawing setting => startFreeDrawing setting
  | EndFreeDrawing => endFreeDrawing
  | StartTextMode => startTextMode
  | EndTextMode => endTextMode
  | EndAll => endAll
  | DeactivateAll => deactivateAll
  | UndoEntry => undo
  | RedoEntry => redo
  | ExecuteEntry command => execute command
  | MutationEntry m => perform m
  | ChangeText text => changeText text
  | ChangeTextStyle styleObj => changeTextStyle styleObj
  | ClearUndoStack => clearUndoStack
  | ClearRedoStack => clearRedoStack
  end.

(** Neither a command action nor the text collaborator starts or stops
    the cropper or the brush. *)
Definition leavesToolsAlone : Prop :=
  (forall d command c c' result raised,
     action d command c = Some (c', result, raised) -> sameTools c c') /\
  (forall method arguments c, sameTools c (fst (textTool method arguments c))).

End Entries.

(** * Properties *)

Section Properties.

Context {collaborators : Collaborators}.

Lemma states_eqb_spec a b : reflect (a = b) (states.eqb a b).
Proof. destruct a, b; simpl; constructor; congruence. Qed.

(** ** Sequencing *)

Lemma seq_Done (f g : M) e e1 : f e = Done e1 -> (f ;; g) e = g e1.
Proof. unfold seq; intros ->; reflexivity. Qed.

Lemma seq_Raised (f g : M) e x e1 : f e = Raised x e1 -> (f ;; g) e = Raised x e1.
Proof. unfold seq; intros ->; reflexivity. Qed.

Lemma seq_lift (u : ImageEditor -> ImageEditor) (g : M) e : (lift u ;; g) e = g (u e).
Proof. reflexivity. Qed.

Lemma extends_refl P e : extends P e e.
Proof. exists []; split; [symmetry; apply app_nil_r | constructor]. Qed.

Lemma extends_trans P e1 e2 e3 : extends P e1 e2 -> extends P e2 e3 -> extends P e1 e3.
Proof.
  intros [n1 [H1 F1]] [n2 [H2 F2]]. exists (n1 ++ n2)%list; split.
  - rewrite H2, H1, app_assoc; reflexivity.
  - apply Forall_app; split; assumption.
Qed.

Lemma extends_record (P : Trace -> Prop) t e e' :
  P t -> trace e' = (trace e ++ [t])%list -> extends P e e'.
Proof. intros Ht H; exists [t]; split; [exact H | repeat constructor; exact Ht]. Qed.

Lemma extends_same P e e' : trace e' = trace e -> extends P e e'.
Proof. intros H; exists []; split; [rewrite H, app_nil_r; reflexivity | constructor]. Qed.

Lemma extends_weaken (P Q : Trace -> Prop) e e' :
  (forall t, P t -> Q t) -> extends P e e' -> extends Q e e'.
Proof.
  intros PQ [new [H F]]; exists new; split; [exact H |].
  eapply Forall_impl; [exact PQ | exact F].
Qed.

Lemma hushed_refl e : hushed e e.
Proof. split; try reflexivity; apply extends_refl. Qed.

Lemma hushed_trans e1 e2 e3 : hushed e1 e2 -> hushed e2 e3 -> hushed e1 e3.
Proof.
  intros [A1 B1 C1 D1] [A2 B2 C2 D2]; split; try congruence.
  eapply extends_trans; eassumption.
Qed.

Lemma undisturbed_refl e : undisturbed e e.
Proof. split; try reflexivity; apply extends_refl. Qed.

Lemma undisturbed_trans e1 e2 e3 :
  undisturbed e1 e2 -> undisturbed e2 e3 -> undisturbed e1 e3.
Proof.
  intros [A1 B1 C1 D1] [A2 B2 C2 D2]; split; try congruence.
  eapply extends_trans; eassumption.
Qed.

Ltac fired :=
  eapply extends_record; cycle 1; [reflexivity | exact I].

(** ** The canvas listeners *)

Lemma onObjectRemoved_hushed obj e :
  exists e', onObjectRemoved obj e = Done e' /\ hushed e e' /\ undisturbed e e'.
Proof.
  eexists; split; [reflexivity |]; split; split; try reflexivity; fired.
Qed.

Lemma onObjectAdded_hushed obj e :
  exists e', onObjectAdded obj e = Done e' /\ hushed e e'.
Proof.
  unfold onObjectAdded.
  destruct (isType obj "cropzone").
  - exists e; split; [reflexivity | apply hushed_refl].
  - destruct (hasStamp obj); simpl.
    + eexists; split; [reflexivity |]; split; try reflexivity; fired.
    + unfold seq, _invoker_pushUndoStack, _invoker_clearRedoStack, seq; simpl.
      destruct (redoStack (_invoker e)) eqn:R; simpl.
      * eexists; split; [reflexivity |]. split; try reflexivity.
        exists [Fired events.PUSH_UNDO_STACK []; Fired events.ADD_OBJECT [VObject obj]].
        split; [simpl; rewrite <- app_assoc; reflexivity | repeat constructor].
      * eexists; split; [reflexivity |]. split; try reflexivity.
        exists [Fired events.PUSH_UNDO_STACK []; Fired events.EMPTY_REDO_STACK [];
                Fired events.ADD_OBJECT [VObject obj]].
        split; [simpl; repeat rewrite <- app_assoc; reflexivity | repeat constructor].
Qed.

Lemma raiseAll_hushed evs : forall e,
  exists e', raiseAll evs e = Done e' /\ hushed e e'.
Proof.
  induction evs as [| ev evs IH]; intros e; simpl.
  - exists e; split; [reflexivity | apply hushed_refl].
  - assert (exists e1, _attachCanvasEvents ev e = Done e1 /\ hushed e e1) as [e1 [E1 H1]].
    { destruct ev as [obj | obj]; simpl.
      - apply onObjectAdded_hushed.
      - destruct (onObjectRemoved_hushed obj e) as [e1 [E [H _]]]; eauto. }
    destruct (IH e1) as [e2 [E2 H2]].
    exists e2; split; [rewrite (seq_Done _ _ _ _ E1); exact E2 |].
    eapply hushed_trans; eassumption.
Qed.

(** ** The exit steps *)

Lemma editor_ext e e' :
  undoStack (_invoker e) = undoStack (_invoker e') ->
  redoStack (_invoker e) = redoStack (_invoker e') ->
  main (componentMap (_invoker e)) = main (componentMap (_invoker e')) ->
  objects (_canvas e) = objects (_canvas e') ->
  activeObject (_canvas e) = activeObject (_canvas e') ->
  activeGroup (_canvas e) = activeGroup (_canvas e') ->
  selection (_canvas e) = selection (_canvas e') ->
  defaultCursor (_canvas e) = defaultCursor (_canvas e') ->
  mouseDown (_canvas e) = mouseDown (_canvas e') ->
  cropper (componentMap (_invoker e)) = cropper (componentMap (_invoker e')) ->
  freeDrawing (componentMap (_invoker e)) = freeDrawing (componentMap (_invoker e')) ->
  _state e = _state e' ->
  _listener e = _listener e' ->
  proxies e = proxies e' ->
  trace e = trace e' ->
  e = e'.
Proof.
  destruct e as [[u r [m [o ao ag s dc md] cr fd]] st li pr tr].
  destruct e' as [[u' r' [m' [o' ao' ag' s' dc' md'] cr' fd']] st' li' pr' tr'].
  unfold _canvas; simpl. intros; subst; reflexivity.
Qed.

Lemma sweptAway_nil a : sweptAway [] a = false.
Proof. reflexivity. Qed.

Lemma sweptAway_cons o l a :
  sweptAway (o :: l) a = (emptyText o && Nat.eqb (oid o) a) || sweptAway l a.
Proof. reflexivity. Qed.

Lemma filter_filter {A} (f g : A -> bool) l :
  filter f (filter g l) = filter (fun x => g x && f x) l.
Proof.
  induction l as [| x l IH]; simpl; [reflexivity |].
  destruct (g x); simpl; [destruct (f x) |]; rewrite IH; reflexivity.
Qed.

Lemma filter_drops {A} (f : A -> bool) x l :
  In x l -> f x = false -> List.length (filter f l) < List.length l.
Proof.
  induction l as [| y l IH]; simpl; [tauto |]. intros [-> | I] F.
  - rewrite F. pose proof (filter_length_le f l). lia.
  - specialize (IH I F). destruct (f y); simpl; lia.
Qed.

Lemma forallb_false_split {A} (p : A -> bool) l :
  forallb p l = false ->
  exists l1 x l2, l = (l1 ++ x :: l2)%list /\ forallb p l1 = true /\ p x = false.
Proof.
  induction l as [| y l IH]; simpl; [discriminate |].
  destruct (p y) eqn:P; simpl.
  - intros F. destruct (IH F) as [l1 [x [l2 [-> [T X]]]]].
    exists (y :: l1), x, l2. simpl. rewrite P. auto.
  - intros _. exists [], y, l. auto.
Qed.

Lemma swept_nil e : swept [] e = e.
Proof.
  apply editor_ext; try reflexivity.
  - unfold swept, _canvas; simpl. apply filter_true.
  - unfold swept, _canvas; simpl. destruct (activeObject _); reflexivity.
  - simpl. apply app_nil_r.
Qed.

Lemma swept_cons o l e :
  swept l (if emptyText o
           then record (Fired events.REMOVE_OBJECT [VObject o]) (onCanvas (detach o) e)
           else e)
  = swept (o :: l) e.
Proof.
  destruct (emptyText o) eqn:E.
  - apply editor_ext; try reflexivity.
    + unfold swept, _canvas, sweptCanvas, onCanvas, onComponents; simpl objects.
      rewrite filter_filter. apply filter_ext. intros x.
      unfold sameObject; rewrite ?sweptAway_cons, E; simpl; rewrite ?negb_orb; reflexivity.
    + unfold swept, _canvas, sweptCanvas, onCanvas, onComponents; simpl activeObject.
      destruct (activeObject (canvas (componentMap (_invoker e)))) as [a |]; [| reflexivity].
      rewrite ?sweptAway_cons, E, (Nat.eqb_sym (oid o) a); simpl.
      destruct (Nat.eqb a (oid o)); reflexivity.
    + unfold swept, removals, recordAll; simpl trace. simpl filter. rewrite E. simpl.
      rewrite <- app_assoc. reflexivity.
  - apply editor_ext; try reflexivity.
    + unfold swept, _canvas, sweptCanvas, onCanvas, onComponents; simpl objects.
      apply filter_ext. intros x. rewrite ?sweptAway_cons, E. reflexivity.
    + unfold swept, _canvas, sweptCanvas, onCanvas, onComponents; simpl activeObject.
      destruct (activeObject (canvas (componentMap (_invoker e)))) as [a |]; [| reflexivity].
      rewrite ?sweptAway_cons, E. reflexivity.
    + unfold swept, removals, recordAll; simpl trace. simpl filter. rewrite E. reflexivity.
Qed.

Lemma removals_notRan l : Forall notRan (removals l).
Proof.
  unfold removals. induction (filter emptyText l) as [| o g IH]; simpl; constructor;
    [exact I | exact IH].
Qed.

(** What a walk leaves outside the canvas's objects and the log. *)
Lemma swept_frame gone e :
  _state (swept gone e) = _state e /\
  _listener (swept gone e) = _listener e /\
  undisturbed e (swept gone e) /\
  cropper (componentMap (_invoker (swept gone e))) = cropper (componentMap (_invoker e)) /\
  freeDrawing (componentMap (_invoker (swept gone e))) =
    freeDrawing (componentMap (_invoker e)).
Proof.
  repeat split. exists (removals gone). split; [reflexivity | apply removals_notRan].
Qed.

(** *** The walk of [endTextMode] *)

Lemma sweepEmptyText_some o e :
  sweepEmptyText (Some o) e =
    Done (if emptyText o
          then record (Fired events.REMOVE_OBJECT [VObject o]) (onCanvas (detach o) e)
          else e).
Proof.
  unfold sweepEmptyText. fold (emptyText o). destruct (emptyText o); reflexivity.
Qed.

Lemma forEach_step callback i n e :
  forEach callback i (S n) e =
    match callback (nth_error (objects (_canvas e)) i) e with
    | Done e1 => forEach callback (S i) n e1
    | Raised x e1 => Raised x e1
    end.
Proof. reflexivity. Qed.

Lemma forEach_app callback n m : forall i e,
  forEach callback i (n + m) e =
    (forEach callback i n ;; forEach callback (i + n) m) e.
Proof.
  induction n as [| n IH]; intros i e; simpl.
  - rewrite Nat.add_0_r. reflexivity.
  - unfold seq.
    destruct (callback (nth_error (objects (_canvas e)) i) e) as [e1 | x e1];
      [| reflexivity].
    rewrite IH, Nat.add_succ_r. reflexivity.
Qed.

(** Objects that are no empty text are passed by. *)
Lemma forEach_prefix pre : forall front rest e,
  objects (_canvas e) = (front ++ pre ++ rest)%list ->
  forallb (fun o => negb (emptyText o)) pre = true ->
  forEach sweepEmptyText (List.length front) (List.length pre) e = Done e.
Proof.
  induction pre as [| o pre IH]; intros front rest e O C; simpl; [reflexivity |].
  simpl in C. apply andb_true_iff in C. destruct C as [Co C].
  apply negb_true_iff in Co.
  unfold seq. rewrite O at 1. rewrite nth_error_app2, Nat.sub_diag by apply le_n.
  simpl nth_error. rewrite sweepEmptyText_some, Co.
  replace (S (List.length front)) with (List.length (front ++ [o])%list)
    by (rewrite length_app; simpl; lia).
  apply (IH _ rest); [rewrite O, <- app_assoc; reflexivity | exact C].
Qed.

(** Once the canvas holds fewer objects than the walk has steps to its
    end, the walk ends on a read of [undefined]. *)
Lemma forEach_short n : forall i e,
  List.length (objects (_canvas e)) < i + S n ->
  exists e', forEach sweepEmptyText i (S n) e = Raised TypeError e'.
Proof.
  induction n as [| n IH]; intros i e L.
  - simpl. unfold seq.
    destruct (nth_error (objects (_canvas e)) i) as [o |] eqn:N.
    + exfalso. assert (i < List.length (objects (_canvas e)))
        by (apply nth_error_Some; congruence). lia.
    + simpl. eexists; reflexivity.
  - rewrite forEach_step.
    destruct (nth_error (objects (_canvas e)) i) as [o |] eqn:N.
    + rewrite sweepEmptyText_some. apply IH.
      destruct (emptyText o); [| lia].
      change (objects (_canvas (record (Fired events.REMOVE_OBJECT [VObject o])
                                  (onCanvas (detach o) e))))
        with (filter (fun o' => negb (sameObject (oid o) o')) (objects (_canvas e))).
      pose proof (filter_length_le (fun o' => negb (sameObject (oid o) o'))
                    (objects (_canvas e))). lia.
    + simpl. eexists; reflexivity.
Qed.

(** However it ends, the walk has removed some empty text objects, and
    nothing else has changed. *)
Lemma forEach_frame n : forall i e,
  exists gone,
    final (forEach sweepEmptyText i n e) = swept gone e /\
    Forall (fun o => emptyText o = true) gone.
Proof.
  induction n as [| n IH]; intros i e; simpl.
  - exists []. split; [rewrite swept_nil; reflexivity | constructor].
  - unfold seq.
    destruct (nth_error (objects (_canvas e)) i) as [o |].
    + rewrite sweepEmptyText_some.
      destruct (IH (S i) (if emptyText o
                          then record (Fired events.REMOVE_OBJECT [VObject o])
                                 (onCanvas (detach o) e)
                          else e)) as [gone [G F]].
      rewrite G. destruct (emptyText o) eqn:E.
      * exists (o :: gone). split; [| constructor; assumption].
        rewrite <- swept_cons, E. reflexivity.
      * exists gone. split; [reflexivity | exact F].
    + simpl. exists []. split; [rewrite swept_nil; reflexivity | constructor].
Qed.

(** An empty text object before another object: the walk removes it and
    runs past the end. *)
Lemma forEach_dirty p1 x p2 e :
  objects (_canvas e) = (p1 ++ x :: p2)%list ->
  forallb (fun o => negb (emptyText o)) p1 = true ->
  emptyText x = true -> p2 <> [] ->
  exists e', _canvas_forEachObject sweepEmptyText e = Raised TypeError e'.
Proof.
  intros O C X N. unfold _canvas_forEachObject.
  destruct p2 as [| y p2]; [contradiction |].
  replace (List.length (objects (_canvas e))) with (List.length p1 + S (S (List.length p2)))
    by (rewrite O, length_app; simpl; lia).
  rewrite forEach_app.
  rewrite (seq_Done _ _ _ _ (forEach_prefix p1 [] (x :: y :: p2) e O C)).
  simpl Nat.add.
  assert (Nth : nth_error (objects (_canvas e)) (List.length p1) = Some x)
    by (rewrite O, nth_error_app2, Nat.sub_diag by apply le_n; reflexivity).
  rewrite forEach_step, Nth, sweepEmptyText_some, X.
  apply forEach_short.
  change (objects (_canvas (record (Fired events.REMOVE_OBJECT [VObject x])
                              (onCanvas (detach x) e))))
    with (filter (fun o' => negb (sameObject (oid x) o')) (objects (_canvas e))).
  assert (D : List.length (filter (fun o' => negb (sameObject (oid x) o')) (objects (_canvas e)))
              < List.length (objects (_canvas e))).
  { apply (filter_drops _ x).
    - rewrite O. apply in_or_app. right. left. reflexivity.
    - unfold sameObject. rewrite Nat.eqb_refl. reflexivity. }
  pose proof (f_equal (@List.length _) O) as LO. rewrite length_app in LO. simpl in LO. lia.
Qed.

Lemma lastOnly_last pre o : lastOnly (pre ++ [o]) = [o].
Proof. unfold lastOnly. rewrite rev_unit. reflexivity. Qed.

Lemma walkable_last pre o :
  walkable (pre ++ [o]) = forallb (fun o => negb (emptyText o)) pre.
Proof. unfold walkable. rewrite removelast_last. reflexivity. Qed.

(** The walk comes to its end exactly on a walkable canvas, and then
    only the last object may be gone. *)
Lemma sweep_cases e :
  (walkable (objects (_canvas e)) = true /\
   _canvas_forEachObject sweepEmptyText e =
     Done (swept (lastOnly (objects (_canvas e))) e)) \/
  (walkable (objects (_canvas e)) = false /\
   exists gone,
     _canvas_forEachObject sweepEmptyText e = Raised TypeError (swept gone e) /\
     Forall (fun o => emptyText o = true) gone).
Proof.
  destruct (objects (_canvas e)) as [| y l] eqn:O.
  - left. split; [reflexivity |]. unfold _canvas_forEachObject. rewrite O. simpl.
    unfold skip. rewrite swept_nil. reflexivity.
  - destruct (exists_last (l := y :: l)) as [pre [o E]]; [discriminate |].
    rewrite E in *. clear E y l.
    rewrite walkable_last, lastOnly_last.
    destruct (forallb (fun o => negb (emptyText o)) pre) eqn:C.
    + left. split; [reflexivity |]. unfold _canvas_forEachObject.
      rewrite O, last_length. replace (S (List.length pre)) with (List.length pre + 1) by lia.
      rewrite forEach_app.
      rewrite (seq_Done _ _ _ _ (forEach_prefix pre [] [o] e O C)).
      simpl. unfold seq. rewrite O at 1.
      rewrite nth_error_app2, Nat.sub_diag by apply le_n. simpl nth_error.
      rewrite sweepEmptyText_some. unfold skip.
      rewrite <- (swept_cons o [] e), swept_nil. reflexivity.
    + right. split; [reflexivity |].
      destruct (forallb_false_split _ _ C) as [p1 [x [p2 [-> [C1 X]]]]].
      apply negb_false_iff in X.
      destruct (forEach_dirty p1 x (p2 ++ [o]) e) as [e' E'];
        [rewrite O, <- app_assoc; reflexivity | exact C1 | exact X
        | destruct p2; discriminate |].
      destruct (forEach_frame (List.length (objects (_canvas e))) 0 e) as [gone [G F]].
      exists gone. split; [| exact F].
      unfold _canvas_forEachObject in *. rewrite E' in G |- *. simpl in G.
      rewrite G. reflexivity.
Qed.

Lemma textLeft_Done e :
  (if states.eqb (getCurrentState e) states.TEXT
   then Done (setState states.NORMAL e) else Done e) = Done (textLeft e).
Proof.
  unfold textLeft, getCurrentState. destruct (states.eqb (_state e) states.TEXT); reflexivity.
Qed.

Lemma textLeft_fields e :
  _invoker (textLeft e) = _invoker e /\ _listener (textLeft e) = _listener e /\
  proxies (textLeft e) = proxies e /\ trace (textLeft e) = trace e /\
  _state (textLeft e) =
    (if states.eqb (_state e) states.TEXT then states.NORMAL else _state e).
Proof.
  unfold textLeft. destruct (states.eqb (_state e) states.TEXT); repeat split.
Qed.

(** [endTextMode] returns exactly on a walkable canvas; otherwise the
    TypeError of the walk leaves it, before the canvas is reset. *)
Lemma endTextMode_cases e :
  (walkable (objects (_canvas e)) = true /\ endTextMode e = Done (afterEndTextMode e)) \/
  (walkable (objects (_canvas e)) = false /\
   exists gone,
     endTextMode e = Raised TypeError (swept gone (textLeft e)) /\
     Forall (fun o => emptyText o = true) gone).
Proof.
  destruct (textLeft_fields e) as [I [L _]].
  assert (O : objects (_canvas (textLeft e)) = objects (_canvas e))
    by (unfold _canvas; rewrite I; reflexivity).
  assert (EQ : endTextMode e =
               (_canvas_forEachObject sweepEmptyText ;;
                lift (onCanvas (setSelection true)) ;;
                lift (onCanvas (setDefaultCursor "default")) ;;
                (fun e => _canvas_off_mouseDown (_listener e) e)) (textLeft e)).
  { unfold endTextMode. fold sweepEmptyText. unfold seq at 1. rewrite textLeft_Done.
    reflexivity. }
  rewrite EQ. clear EQ.
  destruct (sweep_cases (textLeft e)) as [[W E] | [W [gone [E F]]]]; rewrite O in *.
  - left. split; [exact W |]. unfold seq at 1. rewrite E.
    unfold afterEndTextMode. rewrite <- L.
    remember (swept (lastOnly (objects (_canvas e))) (textLeft e)) as e1 eqn:E1.
    assert (L1 : _listener e1 = _listener (textLeft e)) by (subst e1; reflexivity).
    rewrite <- L1. clear. reflexivity.
  - right. split; [exact W |]. exists gone. split; [| exact F].
    unfold seq at 1. rewrite E. reflexivity.
Qed.

Lemma endFreeDrawing_eq e : endFreeDrawing e = Done (afterEndFreeDrawing e).
Proof.
  unfold endFreeDrawing, afterEndFreeDrawing, getCurrentState.
  destruct (states.eqb (_state e) states.FREE_DRAWING); reflexivity.
Qed.

Lemma cropEnded_undisturbed isApplying e : undisturbed e (cropEnded isApplying e).
Proof.
  split; try reflexivity.
  exists [Called compList.CROPPER "end" [isApplying]; Fired events.END_CROPPING []].
  split; [simpl; rewrite <- app_assoc; reflexivity | repeat constructor].
Qed.

Lemma endCropping_body_cancel (rec : M) isApplying e :
  truthy isApplying = false ->
  endCropping_body rec isApplying e =
    Done (if states.eqb (_state e) states.CROP then cropEnded isApplying e else e).
Proof.
  intros F. unfold endCropping_body, getCurrentState, cropper_end_data.
  rewrite F. destruct (states.eqb (_state e) states.CROP); reflexivity.
Qed.

Lemma deactivateAll_eq e : deactivateAll e = Done (onCanvas discardActive e).
Proof. reflexivity. Qed.

(** [endAll] as a whole.  The call that closes the cycle is never made:
    [endAll] calls [endCropping] without an argument, and the cropper
    then returns nothing to load. *)
Lemma endAll_body_cases (rec : M) e :
  (walkable (objects (_canvas e)) = true /\ endAll_body rec e = Done (afterEndAll e)) \/
  (walkable (objects (_canvas e)) = false /\
   exists gone,
     endAll_body rec e = Raised TypeError (swept gone (textLeft e)) /\
     Forall (fun o => emptyText o = true) gone).
Proof.
  unfold endAll_body.
  destruct (endTextMode_cases e) as [[W E] | [W [gone [E F]]]].
  - left. split; [exact W |].
    rewrite (seq_Done _ _ _ _ E), (seq_Done _ _ _ _ (endFreeDrawing_eq _)).
    rewrite (seq_Done _ _ _ _ (endCropping_body_cancel rec VUndefined _ eq_refl)).
    reflexivity.
  - right. split; [exact W |]. exists gone. split; [| exact F].
    apply seq_Raised. exact E.
Qed.

Lemma endAll_body_closed (f g : M) e : endAll_body f e = endAll_body g e.
Proof.
  unfold endAll_body.
  destruct (endTextMode e) as [e1 | x e1] eqn:E.
  - rewrite !(seq_Done _ _ _ _ E), !(seq_Done _ _ _ _ (endFreeDrawing_eq e1)).
    rewrite (seq_Done _ _ _ _ (endCropping_body_cancel f VUndefined _ eq_refl)).
    rewrite (seq_Done _ _ _ _ (endCropping_body_cancel g VUndefined _ eq_refl)).
    reflexivity.
  - rewrite !(seq_Raised _ _ _ _ _ E). reflexivity.
Qed.

(** [endAll] satisfies the equation its source text states. *)
Lemma endAll_unfold e :
  endAll e =
  (endTextMode ;; endFreeDrawing ;; endCropping VUndefined ;; deactivateAll ;;
   lift (setState states.NORMAL)) e.
Proof. unfold endAll; simpl. apply endAll_body_closed. Qed.

(** Deeper unrolling changes nothing, and the stack is never exhausted. *)
Lemma endAll_depth_enough depth e : endAll_depth (S depth) e = endAll e.
Proof. unfold endAll; simpl. apply endAll_body_closed. Qed.

Lemma endAll_cases e :
  (walkable (objects (_canvas e)) = true /\ endAll e = Done (afterEndAll e)) \/
  (walkable (objects (_canvas e)) = false /\
   exists gone,
     endAll e = Raised TypeError (swept gone (textLeft e)) /\
     Forall (fun o => emptyText o = true) gone).
Proof. unfold endAll; simpl. apply endAll_body_cases. Qed.

Lemma endAll_eq e :
  walkable (objects (_canvas e)) = true -> endAll e = Done (afterEndAll e).
Proof.
  intros W. destruct (endAll_cases e) as [[_ E] | [W' _]]; [exact E | congruence].
Qed.

Lemma endAll_Done e e1 :
  endAll e = Done e1 -> walkable (objects (_canvas e)) = true /\ e1 = afterEndAll e.
Proof.
  intros E. destruct (endAll_cases e) as [[W E'] | [_ [gone [E' _]]]];
    rewrite E' in E; [injection E as <-; auto | discriminate].
Qed.

Lemma endAll_Raised e x e1 :
  endAll e = Raised x e1 ->
  walkable (objects (_canvas e)) = false /\ x = TypeError /\
  exists gone, e1 = swept gone (textLeft e) /\ Forall (fun o => emptyText o = true) gone.
Proof.
  intros E. destruct (endAll_cases e) as [[_ E'] | [W [gone [E' F]]]];
    rewrite E' in E; [discriminate |].
  injection E as <- <-. split; [exact W |]. split; [reflexivity |]. exists gone. auto.
Qed.

(** Every field of the editor [endTextMode] returns. *)
Lemma afterEndTextMode_fields e :
  let e' := afterEndTextMode e in
  let objs := objects (_canvas e) in
  undoStack (_invoker e') = undoStack (_invoker e) /\
  redoStack (_invoker e') = redoStack (_invoker e) /\
  main (componentMap (_invoker e')) = main (componentMap (_invoker e)) /\
  objects (_canvas e') = filter (fun o => negb (sweptAway (lastOnly objs) (oid o))) objs /\
  activeObject (_canvas e') =
    match activeObject (_canvas e) with
    | Some a => if sweptAway (lastOnly objs) a then None else Some a
    | None => None
    end /\
  activeGroup (_canvas e') = activeGroup (_canvas e) /\
  selection (_canvas e') = true /\
  defaultCursor (_canvas e') = "default" /\
  mouseDown (_canvas e') = detached (_listener e) (mouseDown (_canvas e)) /\
  cropper (componentMap (_invoker e')) = cropper (componentMap (_invoker e)) /\
  freeDrawing (componentMap (_invoker e')) = freeDrawing (componentMap (_invoker e)) /\
  _state e' = (if states.eqb (_state e) states.TEXT then states.NORMAL else _state e) /\
  _listener e' = _listener e /\
  proxies e' = proxies e /\
  trace e' = (trace e ++ removals (lastOnly objs))%list.
Proof.
  cbv zeta. unfold afterEndTextMode, textLeft, swept, _canvas.
  destruct e as [[u r [m c cr fd]] st li pr tr].
  destruct st; simpl; repeat split.
Qed.

(** Every field of the editor [endAll] returns. *)
Lemma afterEndAll_fields e :
  let e' := afterEndAll e in
  let objs := objects (_canvas e) in
  undoStack (_invoker e') = undoStack (_invoker e) /\
  redoStack (_invoker e') = redoStack (_invoker e) /\
  main (componentMap (_invoker e')) = main (componentMap (_invoker e)) /\
  objects (_canvas e') = filter (fun o => negb (sweptAway (lastOnly objs) (oid o))) objs /\
  activeObject (_canvas e') = None /\
  activeGroup (_canvas e') = None /\
  selection (_canvas e') = true /\
  defaultCursor (_canvas e') = "default" /\
  mouseDown (_canvas e') = detached (_listener e) (mouseDown (_canvas e)) /\
  cropper (componentMap (_invoker e')) =
    (if states.eqb (_state e) states.CROP
     then {| cropping := false; region := None |}
     else cropper (componentMap (_invoker e))) /\
  freeDrawing (componentMap (_invoker e')) =
    (if states.eqb (_state e) states.FREE_DRAWING
     then {| drawing := false; brush := brush (freeDrawing (componentMap (_invoker e))) |}
     else freeDrawing (componentMap (_invoker e))) /\
  _state e' = states.NORMAL /\
  _listener e' = _listener e /\
  proxies e' = proxies e /\
  trace e' =
    (trace e ++ removals (lastOnly objs)
       ++ (if states.eqb (_state e) states.FREE_DRAWING
           then [Called compList.FREE_DRAWING "end" []; Fired events.END_FREE_DRAWING []]
           else [])
       ++ (if states.eqb (_state e) states.CROP
           then [Called compList.CROPPER "end" [VUndefined]; Fired events.END_CROPPING []]
           else []))%list.
Proof.
  cbv zeta. unfold afterEndAll, afterEndFreeDrawing, afterEndTextMode, textLeft, swept, _canvas.
  destruct e as [[u r [m c cr fd]] st li pr tr].
  destruct st; simpl;
    repeat split;
    rewrite ?app_nil_r, <- ?app_assoc; reflexivity.
Qed.

(** What a throw inside the walk leaves: the mode as the first statement
    of [endTextMode] set it, and the canvas not reset. *)
Lemma thrown_fields gone e :
  let e' := swept gone (textLeft e) in
  undoStack (_invoker e') = undoStack (_invoker e) /\
  redoStack (_invoker e') = redoStack (_invoker e) /\
  main (componentMap (_invoker e')) = main (componentMap (_invoker e)) /\
  selection (_canvas e') = selection (_canvas e) /\
  defaultCursor (_canvas e') = defaultCursor (_canvas e) /\
  mouseDown (_canvas e') = mouseDown (_canvas e) /\
  cropper (componentMap (_invoker e')) = cropper (componentMap (_invoker e)) /\
  freeDrawing (componentMap (_invoker e')) = freeDrawing (componentMap (_invoker e)) /\
  _state e' = (if states.eqb (_state e) states.TEXT then states.NORMAL else _state e) /\
  _listener e' = _listener e /\
  trace e' = (trace e ++ removals gone)%list.
Proof.
  cbv zeta. unfold textLeft, swept, _canvas.
  destruct e as [[u r [m c cr fd]] st li pr tr].
  destruct st; simpl; repeat split.
Qed.

Lemma afterEndAll_undisturbed e : undisturbed e (afterEndAll e).
Proof.
  destruct (afterEndAll_fields e) as [U [R [Mn [_ [_ [_ [_ [_ [_ [_ [_ [_ [_ [_ T]]]]]]]]]]]]]].
  split; try assumption.
  eexists. split; [exact T |].
  repeat (apply Forall_app; split); [apply removals_notRan | |].
  - destruct (states.eqb (_state e) states.FREE_DRAWING); repeat constructor.
  - destruct (states.eqb (_state e) states.CROP); repeat constructor.
Qed.

Lemma thrown_undisturbed gone e : undisturbed e (swept gone (textLeft e)).
Proof.
  destruct (thrown_fields gone e) as [U [R [Mn [_ [_ [_ [_ [_ [_ [_ T]]]]]]]]]].
  split; try assumption.
  exists (removals gone). split; [exact T | apply removals_notRan].
Qed.

(** Returning or not, [endAll] changes neither stack and runs no command
    action. *)
Lemma endAll_undisturbed e : undisturbed e (final (endAll e)).
Proof.
  destruct (endAll_cases e) as [[_ E] | [_ [gone [E _]]]]; rewrite E; simpl.
  - apply afterEndAll_undisturbed.
  - apply thrown_undisturbed.
Qed.

(** When [endAll] returns, the mode is Normal and nothing is selected. *)
Lemma endAll_state e e1 :
  endAll e = Done e1 ->
  _state e1 = states.NORMAL /\
  activeObject (_canvas e1) = None /\ activeGroup (_canvas e1) = None.
Proof.
  intros E. destruct (endAll_Done _ _ E) as [_ ->].
  destruct (afterEndAll_fields e) as [_ [_ [_ [_ [AO [AG [_ [_ [_ [_ [_ [St _]]]]]]]]]]]].
  auto.
Qed.

Lemma sweptAway_self l o : In o l -> emptyText o = true -> sweptAway l (oid o) = true.
Proof.
  intros I E. unfold sweptAway. apply existsb_exists. exists o. split; [exact I |].
  rewrite E, Nat.eqb_refl. reflexivity.
Qed.

Lemma sweptAway_none l a :
  (forall o, In o l -> emptyText o = false) -> sweptAway l a = false.
Proof.
  intros N. unfold sweptAway. induction l as [| d l IH]; simpl; [reflexivity |].
  rewrite (N d (or_introl eq_refl)). simpl. apply IH. intros o I. apply N. right; exact I.
Qed.

Lemma removals_none l : (forall o, In o l -> emptyText o = false) -> removals l = [].
Proof.
  intros N. unfold removals. induction l as [| d l IH]; simpl; [reflexivity |].
  rewrite (N d (or_introl eq_refl)). apply IH. intros o I. apply N. right; exact I.
Qed.

Lemma lastOnly_incl l o : In o (lastOnly l) -> In o l.
Proof.
  destruct l as [| y l]; [intros [] |].
  destruct (exists_last (l := y :: l)) as [pre [x ->]]; [discriminate |].
  rewrite lastOnly_last. intros [<- | []]. apply in_or_app. right. left. reflexivity.
Qed.

(** On a walkable canvas only the last object can be an empty text. *)
Lemma walkable_empty l o :
  walkable l = true -> In o l -> emptyText o = true -> In o (lastOnly l).
Proof.
  destruct l as [| y l]; [intros _ [] |].
  destruct (exists_last (l := y :: l)) as [pre [x ->]]; [discriminate |].
  rewrite walkable_last, lastOnly_last. intros W I E.
  apply in_app_or in I. destruct I as [I | [<- | []]]; [| left; reflexivity].
  rewrite forallb_forall in W. specialize (W o I). rewrite E in W. discriminate.
Qed.

(** After a walk that came to its end, no empty text object is left. *)
Lemma walkable_clean l o :
  walkable l = true ->
  In o (filter (fun o => negb (sweptAway (lastOnly l) (oid o))) l) -> emptyText o = false.
Proof.
  intros W I. apply filter_In in I. destruct I as [I N].
  destruct (emptyText o) eqn:E; [| reflexivity].
  rewrite (sweptAway_self _ _ (walkable_empty _ _ W I E) E) in N. discriminate.
Qed.

Lemma clean_walkable l :
  (forall o, In o l -> emptyText o = false) -> walkable l = true.
Proof.
  intros N. unfold walkable. apply forallb_forall. intros o I.
  rewrite N; [reflexivity |].
  destruct l as [| y l]; [destruct I |].
  destruct (exists_last (l := y :: l)) as [pre [x E]]; [discriminate |].
  rewrite E in *. rewrite removelast_last in I. apply in_or_app. left. exact I.
Qed.

Lemma endAll_clean e e1 o :
  endAll e = Done e1 -> In o (objects (_canvas e1)) -> emptyText o = false.
Proof.
  intros E I. destruct (endAll_Done _ _ E) as [W ->].
  destruct (afterEndAll_fields e) as [_ [_ [_ [O _]]]]. rewrite O in I.
  eapply walkable_clean; eassumption.
Qed.

(** ** Callbacks and the invoker *)

Lemma _callbackAfterImageLoading_quiet oImage e :
  let e' := final (_callbackAfterImageLoading oImage e) in
  _invoker e' = _invoker e /\ _state e' = _state e /\ extends notRan e e'.
Proof.
  unfold _callbackAfterImageLoading.
  destruct (get oImage "width"); [destruct (get oImage "height") |]; simpl;
    repeat split; try reflexivity; try apply extends_refl; fired.
Qed.

Lemma applyCallback_quiet callback arguments e :
  let e' := final (applyCallback callback arguments e) in
  _invoker e' = _invoker e /\ _state e' = _state e /\ extends notRan e e'.
Proof.
  destruct callback as [[eventName | |] |]; simpl.
  - repeat split; try reflexivity; fired.
  - apply _callbackAfterImageLoading_quiet.
  - destruct (truthy (arg0 arguments)).
    + apply _callbackAfterImageLoading_quiet.
    + simpl; repeat split; try reflexivity; fired.
  - repeat split; try reflexivity; apply extends_refl.
Qed.

Lemma _invoker_clearRedoStack_spec e :
  exists e', _invoker_clearRedoStack e = Done e' /\
    redoStack (_invoker e') = [] /\
    undoStack (_invoker e') = undoStack (_invoker e) /\
    componentMap (_invoker e') = componentMap (_invoker e) /\
    _state e' = _state e /\ extends notRan e e'.
Proof.
  unfold _invoker_clearRedoStack.
  destruct (redoStack (_invoker e)) eqn:R.
  - exists e; repeat split; try assumption; try reflexivity; apply extends_refl.
  - eexists; split; [reflexivity |]. repeat split; try reflexivity; fired.
Qed.

(** What [invoke] leaves when the execute action succeeds. *)
Lemma _invoker_invoke_performed command e components result raised :
  action Execute command (componentMap (_invoker e)) = Some (components, result, raised) ->
  let e' := final (_invoker_invoke command e) in
  redoStack (_invoker e') = [] /\
  (exists below, undoStack (_invoker e') = command :: below) /\
  _state e' = _state e /\
  exists new, trace e' = (trace e ++ Ran Execute command (_state e) :: new)%list /\
              Forall notRan new.
Proof.
  intros A.
  set (e0 := onComponents (fun _ => components) (record (Ran Execute command (_state e)) e)).
  destruct (raiseAll_hushed raised e0) as [e1 [E1 H1]].
  destruct (_invoker_clearRedoStack_spec (setInvoker (setUndoStack (cons command)) e1))
    as [e2 [E2 [R2 [U2 [C2 [S2 T2]]]]]].
  assert (EQ : _invoker_invoke command e =
               applyCallback (executeCallback command) result
                 (record (Fired events.PUSH_UNDO_STACK []) e2)).
  { unfold _invoker_invoke; rewrite A. rewrite !seq_lift. fold e0.
    rewrite (seq_Done _ _ _ _ E1), seq_lift, (seq_Done _ _ _ _ E2). reflexivity. }
  rewrite EQ.
  destruct (applyCallback_quiet (executeCallback command) result
              (record (Fired events.PUSH_UNDO_STACK []) e2)) as [I3 [S3 T3]].
  cbv zeta.
  rewrite I3; simpl. rewrite R2, U2; simpl.
  split; [reflexivity |]. split; [eexists; reflexivity |].
  split.
  - rewrite S3; simpl. rewrite S2; simpl. rewrite (hushed_state _ _ H1). reflexivity.
  - destruct (hushed_trace _ _ H1) as [n1 [N1 F1]].
    destruct T2 as [n2 [N2 F2]]. destruct T3 as [n3 [N3 F3]].
    exists (n1 ++ n2 ++ Fired events.PUSH_UNDO_STACK [] :: n3)%list. split.
    + rewrite N3; simpl. rewrite N2; simpl. rewrite N1; simpl.
      repeat rewrite <- app_assoc. reflexivity.
    + repeat (apply Forall_app; split); try assumption.
      constructor; [exact I | assumption].
Qed.

Lemma _invoker_invoke_failed command e :
  action Execute command (componentMap (_invoker e)) = None ->
  _invoker_invoke command e =
    Raised ActionFailed (record (Ran Execute command (_state e)) e).
Proof. intros A; unfold _invoker_invoke; rewrite A; reflexivity. Qed.

(** Whatever the action does, [invoke] runs it in the mode it was entered
    in. *)
Lemma _invoker_invoke_trace command e :
  _state e = states.NORMAL ->
  extends ranInNormal e (final (_invoker_invoke command e)).
Proof.
  intros N.
  destruct (action Execute command (componentMap (_invoker e)))
    as [[[components result] raised] |] eqn:A.
  - destruct (_invoker_invoke_performed command e _ _ _ A) as [_ [_ [_ [new [T F]]]]].
    exists (Ran Execute command (_state e) :: new); split; [exact T |].
    constructor; [exact N |].
    eapply Forall_impl; [| exact F]. intros [] H; simpl in *; tauto.
  - rewrite (_invoker_invoke_failed _ _ A).
    eapply extends_record; cycle 1; [reflexivity | exact N].
Qed.

Lemma execute_eq command e e1 :
  endAll e = Done e1 -> execute command e = _invoker_invoke command e1.
Proof. intros E; unfold execute, execute_body; apply seq_Done; exact E. Qed.

(** The listeners of the canvas and the stacks say nothing about the
    image. *)
Lemma raiseAll_notAboutImage evs : forall e,
  extends notAboutImage e (final (raiseAll evs e)).
Proof.
  induction evs as [| ev evs IH]; intros e; simpl.
  - apply extends_refl.
  - unfold seq.
    assert (exists e1, _attachCanvasEvents ev e = Done e1 /\ extends notAboutImage e e1)
      as [e1 [E1 X1]].
    { destruct ev as [obj | obj]; simpl.
      - unfold onObjectAdded. destruct (isType obj "cropzone").
        + exists e. split; [reflexivity | apply extends_refl].
        + destruct (hasStamp obj); simpl.
          * eexists. split; [reflexivity |].
            eapply extends_record; cycle 1; [reflexivity | exact I].
          * unfold seq, _invoker_pushUndoStack, _invoker_clearRedoStack, seq; simpl.
            destruct (redoStack (_invoker e)); simpl.
            -- eexists. split; [reflexivity |].
               exists [Fired events.PUSH_UNDO_STACK []; Fired events.ADD_OBJECT [VObject obj]].
               split; [simpl; rewrite <- app_assoc; reflexivity | repeat constructor].
            -- eexists. split; [reflexivity |].
               exists [Fired events.PUSH_UNDO_STACK []; Fired events.EMPTY_REDO_STACK [];
                       Fired events.ADD_OBJECT [VObject obj]].
               split; [simpl; repeat rewrite <- app_assoc; reflexivity | repeat constructor].
      - eexists. split; [reflexivity |].
        eapply extends_record; cycle 1; [reflexivity | exact I]. }
    rewrite E1. eapply extends_trans; [exact X1 | apply IH].
Qed.

(** ** The guards of the mode changes *)

(** The three start methods run [endAll] first, whatever the mode they
    are called in (the first two unless their own mode is current). *)
Lemma start_methods_exit_first e e0 :
  endAll e = Done e0 ->
  (_state e <> states.CROP ->
   startCropping e =
     (lift (setState states.CROP) ;; cropper_start ;;
      fire events.START_CROPPING []) e0) /\
  (forall setting,
     _state e <> states.FREE_DRAWING ->
     startFreeDrawing setting e =
       (freeDrawing_start setting ;; lift (setState states.FREE_DRAWING) ;;
        fire events.START_FREE_DRAWING []) e0) /\
  (exists e', startTextMode e = Done e' /\ _state e' = states.TEXT /\
              _listener e' = Some (proxies e0) /\
              selection (_canvas e') = false /\ defaultCursor (_canvas e') = "text").
Proof.
  intros E. destruct (endAll_state _ _ E) as [S _].
  split; [| split].
  - intros N. unfold startCropping, getCurrentState.
    destruct (states_eqb_spec (_state e) states.CROP); [contradiction |].
    apply seq_Done; exact E.
  - intros setting N. unfold startFreeDrawing, getCurrentState.
    destruct (states_eqb_spec (_state e) states.FREE_DRAWING); [contradiction |].
    apply seq_Done; exact E.
  - unfold startTextMode. rewrite (seq_Done _ _ _ _ E).
    unfold getCurrentState. rewrite S. simpl.
    eexists; split; [reflexivity |]. repeat split.
Qed.

(** A throw of [endAll] is the throw of the method that starts with it. *)
Lemma exit_first_raised e x e0 :
  endAll e = Raised x e0 ->
  (_state e <> states.CROP -> startCropping e = Raised x e0) /\
  (forall setting,
     _state e <> states.FREE_DRAWING -> startFreeDrawing setting e = Raised x e0) /\
  startTextMode e = Raised x e0 /\
  undo e = Raised x e0 /\ redo e = Raised x e0 /\
  (forall command, execute command e = Raised x e0).
Proof.
  intros E. repeat split.
  - intros N. unfold startCropping, getCurrentState.
    destruct (states_eqb_spec (_state e) states.CROP); [contradiction |].
    apply seq_Raised; exact E.
  - intros setting N. unfold startFreeDrawing, getCurrentState.
    destruct (states_eqb_spec (_state e) states.FREE_DRAWING); [contradiction |].
    apply seq_Raised; exact E.
  - apply seq_Raised; exact E.
  - apply seq_Raised; exact E.
  - apply seq_Raised; exact E.
  - intros command. apply seq_Raised; exact E.
Qed.

(** [startCropping] and [startFreeDrawing] do nothing in their own mode;
    [endFreeDrawing] and [endCropping] do nothing outside theirs. *)
Lemma guarded_mode_changes e :
  (_state e = states.CROP -> startCropping e = Done e) /\
  (forall setting, _state e = states.FREE_DRAWING -> startFreeDrawing setting e = Done e) /\
  (_state e <> states.FREE_DRAWING -> endFreeDrawing e = Done e) /\
  (forall isApplying, _state e <> states.CROP -> endCropping isApplying e = Done e).
Proof.
  unfold startCropping, startFreeDrawing, endFreeDrawing, endCropping, endCropping_body,
    getCurrentState.
  repeat split; intros;
    repeat match goal with
    | H : _state e = _ |- _ => rewrite H; clear H
    | |- context [states.eqb (_state e) ?s] => destruct (states_eqb_spec (_state e) s)
    end; try reflexivity; contradiction.
Qed.

(** ** The claims *)

(** C2 (amended).  On an empty undo stack [undo()] does what [endAll()]
    does and nothing more, whether [endAll] returns or throws: both
    stacks are as they were and no command action has run; when the call
    returns, the mode is Normal and nothing is selected on the canvas. *)
Theorem undo_on_empty_stack e :
  undoStack (_invoker e) = [] ->
  undo e = endAll e /\
  undoStack (_invoker (final (undo e))) = [] /\
  redoStack (_invoker (final (undo e))) = redoStack (_invoker e) /\
  extends notRan e (final (undo e)) /\
  (forall e', undo e = Done e' ->
     _state e' = states.NORMAL /\
     activeObject (_canvas e') = None /\ activeGroup (_canvas e') = None).
Proof.
  intros Empty.
  pose proof (endAll_undisturbed e) as U.
  assert (EQ : undo e = endAll e).
  { unfold undo, seq. destruct (endAll e) as [e1 | x e1] eqn:E; [| reflexivity].
    simpl in U. unfold _invoker_undo. rewrite (same_undoStack _ _ U), Empty. reflexivity. }
  rewrite EQ. split; [reflexivity |].
  split; [rewrite (same_undoStack _ _ U); exact Empty |].
  split; [apply (same_redoStack _ _ U) |].
  split; [apply (no_action _ _ U) |].
  intros e' E. apply (endAll_state _ _ E).
Qed.

(** C4.  [endCropping(isApplying)] does nothing outside Crop mode.  In
    Crop mode it sets the mode to Normal, has the crop collaborator
    finish and fires endCropping; then it stops if the collaborator
    returned nothing, and goes on into [loadImageFromURL] with the
    descriptor's URL and name if it returned a descriptor.  When
    [startCropping()] has returned, [endCropping(false)] returns in
    Normal mode with the undo stack as it was before both calls and no
    command action run. *)
Theorem endCropping_chains_on_descriptor isApplying e :
  (_state e <> states.CROP -> endCropping isApplying e = Done e) /\
  (_state e = states.CROP ->
     _state (cropEnded isApplying e) = states.NORMAL /\
     trace (cropEnded isApplying e) =
       (trace e ++ [Called compList.CROPPER "end" [isApplying];
                    Fired events.END_CROPPING []])%list /\
     ((cropper_end_data isApplying e = VUndefined /\
       endCropping isApplying e = Done (cropEnded isApplying e)) \/
      (exists d, cropper_end_data isApplying e = descriptorValue d /\
         endCropping isApplying e =
           loadImageFromURL (VString (url d)) (VString (imageName d))
             (cropEnded isApplying e)))) /\
  (forall e1,
     startCropping e = Done e1 ->
     exists e2,
       endCropping (VBool false) e1 = Done e2 /\
       _state e2 = states.NORMAL /\
       undoStack (_invoker e2) = undoStack (_invoker e) /\
       extends notRan e e2).
Proof.
  split; [| split].
  - intros N. unfold endCropping, endCropping_body, getCurrentState.
    destruct (states_eqb_spec (_state e) states.CROP); [contradiction | reflexivity].
  - intros C. split; [reflexivity |]. split.
    { simpl. rewrite <- app_assoc. reflexivity. }
    unfold endCropping, endCropping_body, getCurrentState. rewrite C; simpl.
    unfold cropper_end_data.
    destruct (truthy isApplying); [| left; split; reflexivity].
    destruct (region (cropper (componentMap (_invoker e)))) as [d |].
    + right. exists d. split; reflexivity.
    + left; split; reflexivity.
  - intros e1 E1.
    assert (undisturbed e e1 /\ _state e1 = states.CROP) as [U1 S1].
    { unfold startCropping, getCurrentState in E1.
      destruct (states_eqb_spec (_state e) states.CROP) as [C | C].
      - injection E1 as <-. split; [apply undisturbed_refl | exact C].
      - pose proof (endAll_undisturbed e) as U0.
        destruct (endAll e) as [e0 | x e0] eqn:E0.
        + rewrite (seq_Done _ _ _ _ E0) in E1. simpl in E1, U0. injection E1 as <-.
          split; [| reflexivity].
          eapply undisturbed_trans; [exact U0 |].
          split; try reflexivity.
          exists [Called compList.CROPPER "start" []; Fired events.START_CROPPING []].
          split; [simpl; rewrite <- app_assoc; reflexivity | repeat constructor].
        + rewrite (seq_Raised _ _ _ _ _ E0) in E1. discriminate. }
    exists (cropEnded (VBool false) e1).
    split.
    { unfold endCropping. rewrite endCropping_body_cancel by reflexivity.
      rewrite S1; reflexivity. }
    split; [reflexivity |].
    pose proof (undisturbed_trans _ _ _ U1 (cropEnded_undisturbed (VBool false) e1)) as U.
    split; [apply (same_undoStack _ _ U) | apply (no_action _ _ U)].
Qed.

Lemma loadImageFromURL_cases url imageName e :
  (truthy imageName && truthy url = false /\ loadImageFromURL url imageName e = Done e) \/
  (truthy imageName && truthy url = true /\
   loadImageFromURL url imageName e = execute (loadImageCommand url imageName) e).
Proof.
  unfold loadImageFromURL, loadImageFromURL_body.
  destruct (truthy imageName), (truthy url); simpl; auto.
Qed.

(** Whatever [execute] does, every command action it starts is started
    in Normal mode. *)
Lemma execute_trace command e : extends ranInNormal e (final (execute command e)).
Proof.
  pose proof (endAll_undisturbed e) as U.
  assert (W : extends ranInNormal e (final (endAll e))).
  { eapply extends_weaken; [| apply (no_action _ _ U)]. intros [] H; simpl in *; tauto. }
  destruct (endAll e) as [e1 | x e1] eqn:E.
  - rewrite (execute_eq _ _ _ E).
    eapply extends_trans; [exact W |].
    apply _invoker_invoke_trace. apply (endAll_state _ _ E).
  - unfold execute, execute_body. rewrite (seq_Raised _ _ _ _ _ E). exact W.
Qed.

(** C6.  Every public mutating method is [execute] of the command it
    builds, that is [endAll()] first and then, when [endAll] has
    returned, the invoker's [invoke] from the Normal mode it leaves.  The
    two load methods build no command exactly when an argument is
    rejected: a falsy url, name or file returns at once, and a truthy
    value that is no file makes [createObjectURL] throw.  Every command
    action started during the call is started in Normal mode. *)
Theorem mutation_runs_in_normal_mode (m : Mutation) e :
  match m with
  | LoadImageFromURL url imageName =>
      (truthy imageName && truthy url = false /\ perform m e = Done e) \/
      (truthy imageName && truthy url = true /\
       perform m e = execute (loadImageCommand url imageName) e)
  | LoadImageFromFile imgFile imageName =>
      (truthy imgFile = false /\ perform m e = Done e) \/
      (truthy imgFile = true /\ (forall f, imgFile <> VFile f) /\
       perform m e = Raised TypeError e) \/
      (exists f,
         imgFile = VFile f /\
         ((truthy (js_or imageName (VString (name f))) = false /\ perform m e = Done e) \/
          (truthy (js_or imageName (VString (name f))) = true /\
           perform m e =
             execute (loadImageCommand (VString (createObjectURL f))
                        (js_or imageName (VString (name f)))) e)))
  | _ => exists command, perform m e = execute command e
  end /\
  (forall command,
     (forall e1,
        endAll e = Done e1 ->
        _state e1 = states.NORMAL /\ execute command e = _invoker_invoke command e1) /\
     (forall x e1,
        endAll e = Raised x e1 ->
        execute command e = Raised x e1 /\ extends notRan e e1)) /\
  extends ranInNormal e (final (perform m e)).
Proof.
  split; [| split].
  - destruct m as [ | | | | a | a | | u n | f n];
      try (eexists; reflexivity).
    + apply loadImageFromURL_cases.
    + simpl perform. unfold loadImageFromFile.
      destruct (truthy f) eqn:T; simpl; [| left; split; reflexivity].
      right.
      destruct f as [ | | b | z | str | o | g | i | file | fields];
        try (left; split; [reflexivity |]; split; [intros f; discriminate | reflexivity]).
      right. exists file. split; [reflexivity |].
      destruct (loadImageFromURL_cases (VString (createObjectURL file))
                  (js_or n (VString (name file))) e) as [[F L] | [F L]];
        simpl in F; rewrite andb_true_r in F; [left | right]; split; assumption.
  - intros command. split.
    + intros e1 E. split; [apply (endAll_state _ _ E) | apply execute_eq; exact E].
    + intros x e1 E. split.
      * unfold execute, execute_body. apply seq_Raised. exact E.
      * pose proof (endAll_undisturbed e) as U. rewrite E in U. apply (no_action _ _ U).
  - destruct m as [ | | | | a | a | | u n | f n];
      try apply execute_trace.
    + simpl. destruct (loadImageFromURL_cases u n e) as [[_ L] | [_ L]]; rewrite L;
        [apply extends_refl | apply execute_trace].
    + simpl perform. unfold loadImageFromFile.
      destruct (truthy f); simpl; [| apply extends_refl].
      destruct f as [ | | b | z | str | o | g | i | file | fields];
        try apply extends_refl.
      match goal with |- context [loadImageFromURL ?u ?n e] =>
        destruct (loadImageFromURL_cases u n e) as [[_ L] | [_ L]] end; rewrite L;
        [apply extends_refl | apply execute_trace].
Qed.

(** C7.  Once a new mutating action is performed, the redo stack is
    empty and the new command is on top of the undo stack, whatever the
    redo stack held: for a command whose execute action succeeds under
    [execute], and for the add-object command that the 'object:added'
    listener records for an object that is neither a crop zone nor
    stamped. *)
Theorem new_action_clears_redo_stack e :
  (forall command e1,
     endAll e = Done e1 ->
     action Execute command (componentMap (_invoker e1)) <> None ->
     redoStack (_invoker (final (execute command e))) = [] /\
     exists below, undoStack (_invoker (final (execute command e))) = command :: below) /\
  (forall obj,
     isType obj "cropzone" = false ->
     hasStamp obj = false ->
     exists e',
       onObjectAdded obj e = Done e' /\
       redoStack (_invoker e') = [] /\
       undoStack (_invoker e') =
         commandFactory_create commands.ADD_OBJECT [VObject obj] :: undoStack (_invoker e)).
Proof.
  split.
  - intros command e1 E A.
    rewrite (execute_eq _ _ _ E).
    destruct (action Execute command (componentMap (_invoker e1)))
      as [[[components result] raised] |] eqn:A'; [| congruence].
    destruct (_invoker_invoke_performed command e1 _ _ _ A') as [R [B _]].
    split; [exact R | exact B].
  - intros obj Z St. unfold onObjectAdded. rewrite Z, St; simpl.
    set (command := commandFactory_create commands.ADD_OBJECT [VObject obj]).
    set (e0 := record (Fired events.PUSH_UNDO_STACK [])
                 (setInvoker (setUndoStack (cons command)) e)).
    destruct (_invoker_clearRedoStack_spec e0) as [e2 [E2 [R2 [U2 _]]]].
    exists (record (Fired events.ADD_OBJECT [VObject obj]) e2). split.
    + assert (P : _invoker_pushUndoStack command e = Done e0) by reflexivity.
      unfold seq at 1. unfold seq at 1. rewrite P, E2. reflexivity.
    + simpl. split; [exact R2 | exact U2].
Qed.

(** C8.  Undoing the load-image command that [loadImageFromURL] built
    returns normally, and the undo callback adds exactly one entry to
    what the invoker had logged when it called it (the undo action, the
    notifications of the canvas and of the stacks, none of them about the
    image): when the undo action's result is an image, loadImage with the
    image's own size and the size of the canvas element at that time;
    when it is null, clearImage. *)
Theorem load_image_undo_notifies url imageName e e1 rest components result raised :
  endAll e = Done e1 ->
  undoStack (_invoker e1) = loadImageCommand url imageName :: rest ->
  action Undo (loadImageCommand url imageName) (componentMap (_invoker e1)) =
    Some (components, [result], raised) ->
  exists e0 new,
    trace e0 =
      (trace e1 ++ Ran Undo (loadImageCommand url imageName) states.NORMAL :: new)%list /\
    Forall notAboutImage new /\
    (forall i, result = VImage i ->
       undo e =
         Done (record (Fired events.LOAD_IMAGE [dimension i (main components)]) e0)) /\
    (result = VNull -> undo e = Done (record (Fired events.CLEAR_IMAGE []) e0)).
Proof.
  intros E Top A.
  destruct (endAll_state _ _ E) as [N _].
  set (command := loadImageCommand url imageName) in *.
  set (e0 := onComponents (fun _ => components)
               (record (Ran Undo command (_state e1))
                  (setInvoker (setUndoStack (fun _ => rest)) e1))).
  destruct (raiseAll_hushed raised e0) as [e2 [E2 H2]].
  pose proof (raiseAll_notAboutImage raised e0) as X2. rewrite E2 in X2.
  destruct X2 as [new2 [T2 F2]]. simpl in T2.
  set (e3 := record (Fired events.PUSH_REDO_STACK [])
               (setInvoker (setRedoStack (cons command)) e2)).
  assert (exists e4 last,
            whenUndoStackEmpty (_attachInvokerEvents events.EMPTY_UNDO_STACK) e3 = Done e4 /\
            main (componentMap (_invoker e4)) = main components /\
            trace e4 = (trace e3 ++ last)%list /\ Forall notAboutImage last)
    as [e4 [last [E4 [M4 [T4 F4]]]]].
  { unfold whenUndoStackEmpty.
    destruct (undoStack (_invoker e3)).
    - eexists. exists [Fired events.EMPTY_UNDO_STACK []].
      split; [reflexivity |].
      split; [simpl; rewrite (hushed_components _ _ H2); reflexivity |].
      split; [reflexivity | repeat constructor].
    - exists e3, []. split; [reflexivity |].
      split; [simpl; rewrite (hushed_components _ _ H2); reflexivity |].
      split; [symmetry; apply app_nil_r | constructor]. }
  assert (EQ : undo e = applyCallback (Some loadImageUndoCallback) [result] e4).
  { unfold undo. rewrite (seq_Done _ _ _ _ E). unfold _invoker_undo.
    rewrite Top, A. rewrite !seq_lift. fold e0.
    rewrite (seq_Done _ _ _ _ E2), seq_lift.
    unfold _attachInvokerEvents at 1, fire at 1. rewrite seq_lift. fold e3.
    rewrite (seq_Done _ _ _ _ E4). reflexivity. }
  exists e4, (new2 ++ Fired events.PUSH_REDO_STACK [] :: last)%list.
  split; [| split; [| split]].
  - rewrite T4. simpl. rewrite T2. simpl. rewrite N.
    rewrite <- !app_assoc. reflexivity.
  - apply Forall_app. split; [exact F2 |]. constructor; [exact I | exact F4].
  - intros i ->. rewrite EQ. simpl. unfold _callbackAfterImageLoading; simpl.
    rewrite M4. reflexivity.
  - intros ->. rewrite EQ. reflexivity.
Qed.

(** C9.  [loadImageFromFile] with a falsy file, and [loadImageFromURL]
    with a falsy url or a falsy image name, return at once: the editor
    is exactly as before (no command, same mode, same stacks, nothing
    fired). *)
Theorem load_with_falsy_argument_is_noop e :
  (forall imgFile imageName,
     truthy imgFile = false -> loadImageFromFile imgFile imageName e = Done e) /\
  (forall url imageName,
     truthy url = false \/ truthy imageName = false ->
     loadImageFromURL url imageName e = Done e).
Proof.
  split.
  - intros imgFile imageName F. unfold loadImageFromFile. rewrite F. reflexivity.
  - intros url imageName F. unfold loadImageFromURL, loadImageFromURL_body.
    destruct F as [F | F]; rewrite F; simpl;
      [rewrite orb_true_r | ]; reflexivity.
Qed.

(** C10.  Outside Text mode, or with no active object on the canvas,
    [changeText] and [changeTextStyle] return at once: the editor is
    exactly as before, and the text collaborator has not been called. *)
Theorem change_text_guarded text styleObj e :
  _state e <> states.TEXT \/ activeObject (_canvas e) = None ->
  changeText text e = Done e /\ changeTextStyle styleObj e = Done e.
Proof.
  intros G. unfold changeText, changeTextStyle, getCurrentState.
  destruct G as [G | G].
  - destruct (states_eqb_spec (_state e) states.TEXT); [contradiction |].
    split; reflexivity.
  - unfold _canvas_getActiveObject. rewrite G. simpl.
    rewrite orb_true_r. split; reflexivity.
Qed.

End Properties.
(** * The claims at concrete inputs *)

(** C1 (the code at the failing input).  In Crop mode, with the arrow
    selected, [addText('hello')] makes Text the current mode at once:
    the cropper is still cropping, nothing was deactivated, and the
    first thing in the trace is the call to the text collaborator; no
    exit action ran. *)
Theorem addText_in_crop_mode :
  _state cropSession = states.CROP /\
  exists e',
    addText (VString "hello") VUndefined cropSession = Done e' /\
    _state e' = states.TEXT /\
    cropping (cropper (componentMap (_invoker e'))) = true /\
    activeObject (_canvas e') = Some 1 /\
    trace e' =
      [Called compList.TEXT "add" [VString "hello"; VRecord []];
       Fired events.PUSH_UNDO_STACK [];
       Fired events.ADD_OBJECT
         [VObject {| oid := 2; otype := "text"; text := "hello"; stamp := false |}]].
Proof.
  split; [reflexivity |]. eexists. split; [reflexivity |].
  repeat split.
Qed.

(** C2 (counterexample).  In Crop mode with an empty undo stack,
    [undo()] leaves Crop mode and drops the selection. *)
Lemma undo_on_empty_stack_changes_mode :
  undoStack (_invoker cropSession) = [] /\
  exists e',
    undo cropSession = Done e' /\
    _state e' <> _state cropSession /\
    activeObject (_canvas e') <> activeObject (_canvas cropSession).
Proof.
  split; [reflexivity |]. eexists. split; [reflexivity |].
  split; simpl; discriminate.
Qed.

Lemma undo_on_empty_stack_witness :
  (undoStack (_invoker cropSession) = [] /\
   undo cropSession = endAll cropSession /\
   exists e',
     undo cropSession = Done e' /\
     _state e' = states.NORMAL /\
     activeObject (_canvas e') = None /\ activeGroup (_canvas e') = None) /\
  (undoStack (_invoker cropWithDraft) = [] /\
   undo cropWithDraft = endAll cropWithDraft /\
   exists e', endAll cropWithDraft = Raised TypeError e' /\ _state e' = states.CROP).
Proof.
  split.
  - destruct (undo_on_empty_stack cropSession eq_refl) as [EQ [_ [_ [_ D]]]].
    split; [reflexivity |]. split; [exact EQ |].
    exists exitedCrop. split; [vm_compute; reflexivity |].
    apply D. vm_compute; reflexivity.
  - destruct (undo_on_empty_stack cropWithDraft eq_refl) as [EQ _].
    split; [reflexivity |]. split; [exact EQ |].
    eexists. split; [vm_compute; reflexivity | reflexivity].
Defined.

(** An empty text object outside Text mode is within reach of the
    public methods: [addText('')], [undo()], [redo()] leave one on the
    canvas in Normal mode. *)
Lemma empty_text_outside_text_mode :
  exists e1 e2 e3 o,
    addText (VString "") VUndefined (init 300 200) = Done e1 /\
    undo e1 = Done e2 /\
    redo e2 = Done e3 /\
    _state e3 = states.NORMAL /\
    objects (_canvas e3) = [o] /\
    isType o "text" = true /\ text o = "".
Proof.
  do 4 eexists.
  split; [vm_compute; reflexivity |].
  split; [vm_compute; reflexivity |].
  split; [vm_compute; reflexivity |].
  repeat split.
Qed.

(** C3 (the code at the failing input).  In Normal mode, [endTextMode()]
    removes the empty text object from the canvas and fires
    removeObject. *)
Theorem endTextMode_outside_text_mode :
  _state idleWithDraft = states.NORMAL /\
  objects (_canvas idleWithDraft) = [arrow; draft] /\
  exists e',
    endTextMode idleWithDraft = Done e' /\
    _state e' = states.NORMAL /\
    objects (_canvas e') = [arrow] /\
    trace e' = [Fired events.REMOVE_OBJECT [VObject draft]].
Proof.
  split; [reflexivity |]. split; [reflexivity |].
  eexists. split; [reflexivity |]. repeat split.
Qed.

(** C5 (the code at the failing input).  In Text mode, [startTextMode()]
    runs [endAll()] and enters Text mode again: the draft is removed, the
    selection is dropped, and a new mouse-down listener replaces the old
    one. *)
Theorem startTextMode_in_text_mode :
  _state textSession = states.TEXT /\
  exists e',
    startTextMode textSession = Done e' /\
    _state e' = states.TEXT /\
    objects (_canvas e') = [arrow] /\
    activeObject (_canvas e') = None /\
    _listener e' = Some 1 /\
    mouseDown (_canvas e') = [1] /\
    trace e' = [Fired events.REMOVE_OBJECT [VObject draft]].
Proof.
  split; [reflexivity |]. eexists. split; [reflexivity |]. repeat split.
Qed.

Lemma endCropping_chains_on_descriptor_witness :
  (_state (init 300 200) <> states.CROP /\
   endCropping (VBool true) (init 300 200) = Done (init 300 200)) /\
  (_state cropSessionWithRegion = states.CROP /\
   exists d,
     cropper_end_data (VBool true) cropSessionWithRegion = descriptorValue d /\
     endCropping (VBool true) cropSessionWithRegion =
       loadImageFromURL (VString (url d)) (VString (imageName d))
         (cropEnded (VBool true) cropSessionWithRegion)) /\
  (startCropping (init 300 200) = Done startedCrop /\
   exists e2,
     endCropping (VBool false) startedCrop = Done e2 /\
     _state e2 = states.NORMAL /\
     undoStack (_invoker e2) = undoStack (_invoker (init 300 200)) /\
     extends notRan (init 300 200) e2).
Proof.
  split; [| split].
  - assert (N : _state (init 300 200) <> states.CROP) by discriminate.
    split; [exact N |].
    exact (proj1 (endCropping_chains_on_descriptor (VBool true) (init 300 200)) N).
  - split; [reflexivity |].
    destruct (proj1 (proj2 (endCropping_chains_on_descriptor (VBool true) cropSessionWithRegion))
                eq_refl) as [_ [_ [[U _] | D]]].
    + discriminate U.
    + exact D.
  - assert (S : startCropping (init 300 200) = Done startedCrop)
      by (vm_compute; reflexivity).
    split; [exact S |].
    exact (proj2 (proj2 (endCropping_chains_on_descriptor (VBool false) (init 300 200)))
             startedCrop S).
Defined.

Lemma new_action_clears_redo_stack_witness :
  (redoStack (_invoker afterUndo) = [rotation] /\
   redoStack (_invoker (final (execute rotation afterUndo))) = [] /\
   exists below,
     undoStack (_invoker (final (execute rotation afterUndo))) = rotation :: below) /\
  (exists e',
     onObjectAdded {| oid := 3; otype := "path"; text := ""; stamp := false |} afterUndo = Done e' /\
     redoStack (_invoker e') = [] /\
     undoStack (_invoker e') =
       commandFactory_create commands.ADD_OBJECT
         [VObject {| oid := 3; otype := "path"; text := ""; stamp := false |}]
       :: undoStack (_invoker afterUndo)).
Proof.
  split.
  - split; [reflexivity |].
    apply (proj1 (new_action_clears_redo_stack afterUndo) rotation (final (endAll afterUndo)));
      [reflexivity | discriminate].
  - apply (proj2 (new_action_clears_redo_stack afterUndo)); reflexivity.
Defined.

Lemma load_image_undo_notifies_witness :
  (exists e0 new,
     trace e0 =
       (trace reloaded ++
        Ran Undo (loadImageCommand (VString "http://url/other.png") (VString "mandrill"))
          states.NORMAL :: new)%list /\
     Forall notAboutImage new /\
     undo reloaded =
       Done (record (Fired events.LOAD_IMAGE
                       [VRecord [("originalWidth", VNumber 800);
                                 ("originalHeight", VNumber 600);
                                 ("currentWidth", VNumber 300);
                                 ("currentHeight", VNumber 200)]]) e0)) /\
  (exists e0 new,
     trace e0 =
       (trace loaded ++
        Ran Undo (loadImageCommand (VString "http://url/testImage.png") (VString "lena"))
          states.NORMAL :: new)%list /\
     Forall notAboutImage new /\
     undo loaded = Done (record (Fired events.CLEAR_IMAGE []) e0)).
Proof.
  split.
  - edestruct (load_image_undo_notifies
                 (VString "http://url/other.png") (VString "mandrill") reloaded reloaded)
      as [e0 [new [T [F [Image _]]]]];
      [vm_compute; reflexivity | vm_compute; reflexivity | vm_compute; reflexivity |].
    exists e0, new. split; [exact T |]. split; [exact F |].
    exact (Image {| width := 800; height := 600 |} eq_refl).
  - edestruct (load_image_undo_notifies
                 (VString "http://url/testImage.png") (VString "lena") loaded loaded)
      as [e0 [new [T [F [_ Null]]]]];
      [vm_compute; reflexivity | vm_compute; reflexivity | vm_compute; reflexivity |].
    exists e0, new. split; [exact T |]. split; [exact F |].
    exact (Null eq_refl).
Defined.

Lemma load_with_falsy_argument_is_noop_witness :
  loadImageFromFile VNull (VString "lena") textSession = Done textSession /\
  loadImageFromURL (VString "") (VString "lena") textSession = Done textSession /\
  loadImageFromURL (VString "http://url/testImage.png") VUndefined textSession = Done textSession.
Proof.
  split; [| split].
  - apply (proj1 (load_with_falsy_argument_is_noop textSession)); reflexivity.
  - apply (proj2 (load_with_falsy_argument_is_noop textSession)); left; reflexivity.
  - apply (proj2 (load_with_falsy_argument_is_noop textSession)); right; reflexivity.
Defined.

Lemma change_text_guarded_witness :
  (changeText (VString "hello") cropSession = Done cropSession /\
   changeTextStyle (VRecord [("fontStyle", VString "italic")]) cropSession = Done cropSession) /\
  (changeText (VString "hello") (onCanvas discardActive textSession)
     = Done (onCanvas discardActive textSession) /\
   changeTextStyle (VRecord [("fontStyle", VString "italic")]) (onCanvas discardActive textSession)
     = Done (onCanvas discardActive textSession)).
Proof.
  split.
  - apply (change_text_guarded _ _ cropSession); left; discriminate.
  - apply (change_text_guarded _ _ (onCanvas discardActive textSession)); right; reflexivity.
Defined.

(** * Further properties *)

Section Further.
Context {collaborators : Collaborators}.

Lemma removeFirst_In h x l : In x (removeFirst h l) -> In x l.
Proof.
  induction l as [| y l IH]; simpl; [tauto |].
  destruct (Nat.eqb h y); simpl; [tauto |]. intros [-> | I]; [left | right]; auto.
Qed.

Lemma removeFirst_absent h l : ~ In h l -> removeFirst h l = l.
Proof.
  induction l as [| y l IH]; simpl; [reflexivity |]. intros N.
  destruct (Nat.eqb_spec h y) as [-> | D]; [exfalso; apply N; left; reflexivity |].
  rewrite IH; [reflexivity | intros I; apply N; right; exact I].
Qed.

Lemma removeFirst_NoDup h l : NoDup l -> ~ In h (removeFirst h l).
Proof.
  induction 1 as [| y l N ND IH]; simpl; [tauto |].
  destruct (Nat.eqb_spec h y) as [-> | D]; [exact N |].
  simpl. intros [E | I]; [congruence | exact (IH I)].
Qed.

Lemma removeFirst_last h l : ~ In h l -> removeFirst h (l ++ [h]) = l.
Proof.
  induction l as [| y l IH]; simpl; intros N.
  - rewrite Nat.eqb_refl. reflexivity.
  - destruct (Nat.eqb_spec h y) as [-> | D]; [exfalso; apply N; left; reflexivity |].
    rewrite IH; [reflexivity | intros I; apply N; right; exact I].
Qed.

Lemma detached_twice li l : NoDup l -> detached li (detached li l) = detached li l.
Proof.
  intros ND. destruct li as [h |]; simpl; [| reflexivity].
  apply removeFirst_absent, removeFirst_NoDup, ND.
Qed.


Lemma lastOnly_clean l :
  (forall o, In o l -> emptyText o = false) ->
  forall o, In o (lastOnly l) -> emptyText o = false.
Proof. intros N o I. apply N, lastOnly_incl, I. Qed.


(** X2.  [endAll] is idempotent: when it has returned and no listener
    was attached twice to 'mouse:down', a second [endAll] returns the
    same editor unchanged. *)
Theorem endAll_idempotent e e1 :
  endAll e = Done e1 -> NoDup (mouseDown (_canvas e)) -> endAll e1 = Done e1.
Proof.
  intros E ND.
  assert (NE : forall o, In o (objects (_canvas e1)) -> emptyText o = false)
    by (intros o; apply (endAll_clean _ _ _ E)).
  destruct (endAll_Done _ _ E) as [_ ->].
  rewrite (endAll_eq _ (clean_walkable _ NE)). f_equal.
  destruct (afterEndAll_fields e)
    as [U [R [Mn [O [AO [AG [Sel [Cur [MD [Cr [Fd [St [Li [Pr T]]]]]]]]]]]]]].
  destruct (afterEndAll_fields (afterEndAll e))
    as [U' [R' [Mn' [O' [AO' [AG' [Sel' [Cur' [MD' [Cr' [Fd' [St' [Li' [Pr' T']]]]]]]]]]]]]].
  apply editor_ext; try congruence.
  - rewrite O'.
    transitivity (filter (fun _ => true) (objects (_canvas (afterEndAll e))));
      [| apply filter_true].
    apply filter_ext. intros o.
    rewrite (sweptAway_none _ _ (lastOnly_clean _ NE)). reflexivity.
  - rewrite MD', Li, MD. apply detached_twice, ND.
  - rewrite Cr', St. reflexivity.
  - rewrite Fd', St. reflexivity.
  - rewrite T', St, (removals_none _ (lastOnly_clean _ NE)). simpl.
    rewrite !app_nil_r. reflexivity.
Qed.

Lemma same_identity l : NoDup (map oid l) ->
  forall o d, In o l -> In d l -> oid d = oid o -> d = o.
Proof.
  induction l as [| x l IH]; simpl; intros ND o d Io Id E; [tauto |].
  inversion ND as [| ? ? Nx ND']; subst.
  destruct Io as [-> | Io], Id as [-> | Id]; try reflexivity.
  - exfalso. apply Nx. rewrite <- E. apply in_map; exact Id.
  - exfalso. apply Nx. rewrite E. apply in_map; exact Io.
  - apply IH; assumption.
Qed.

Lemma sweptAway_unique l o :
  NoDup (map oid l) -> In o l -> sweptAway l (oid o) = emptyText o.
Proof.
  intros ND I. destruct (emptyText o) eqn:E; [apply sweptAway_self; assumption |].
  unfold sweptAway. destruct (existsb _ l) eqn:X; [| reflexivity].
  apply existsb_exists in X. destruct X as [d [Id H]].
  apply andb_true_iff in H. destruct H as [Ed Q]. apply Nat.eqb_eq in Q.
  rewrite (same_identity l ND o d I Id Q) in Ed. congruence.
Qed.


Lemma sweptAway_last l o :
  walkable l = true -> NoDup (map oid l) -> In o l ->
  sweptAway (lastOnly l) (oid o) = emptyText o.
Proof.
  intros W ND I. destruct (emptyText o) eqn:E.
  - apply sweptAway_self; [apply walkable_empty; assumption | exact E].
  - unfold sweptAway. destruct (existsb _ (lastOnly l)) eqn:X; [| reflexivity].
    apply existsb_exists in X. destruct X as [d [Id H]].
    apply andb_true_iff in H. destruct H as [Ed Q]. apply Nat.eqb_eq in Q.
    rewrite (same_identity l ND o d I (lastOnly_incl _ _ Id) Q) in Ed. congruence.
Qed.


Lemma enteredText_fields e0 :
  let e1 := enteredText e0 in
  undoStack (_invoker e1) = undoStack (_invoker e0) /\
  redoStack (_invoker e1) = redoStack (_invoker e0) /\
  main (componentMap (_invoker e1)) = main (componentMap (_invoker e0)) /\
  objects (_canvas e1) = objects (_canvas e0) /\
  activeObject (_canvas e1) = activeObject (_canvas e0) /\
  activeGroup (_canvas e1) = activeGroup (_canvas e0) /\
  selection (_canvas e1) = false /\
  defaultCursor (_canvas e1) = "text" /\
  mouseDown (_canvas e1) = (mouseDown (_canvas e0) ++ [proxies e0])%list /\
  cropper (componentMap (_invoker e1)) = cropper (componentMap (_invoker e0)) /\
  freeDrawing (componentMap (_invoker e1)) = freeDrawing (componentMap (_invoker e0)) /\
  _state e1 = states.TEXT /\
  _listener e1 = Some (proxies e0) /\
  proxies e1 = S (proxies e0) /\
  trace e1 = trace e0.
Proof.
  destruct e0 as [[u r [m c cr fd]] st li pr tr]. repeat split.
Qed.


Lemma startTextMode_after e e0 :
  endAll e = Done e0 -> startTextMode e = Done (enteredText e0).
Proof.
  intros E. destruct (endAll_state _ _ E) as [S _].
  unfold startTextMode. rewrite (seq_Done _ _ _ _ E).
  unfold getCurrentState. rewrite S. reflexivity.
Qed.

(** X4.  [startTextMode] throws what [endAll] throws.  When [endAll]
    returns, [startTextMode] returns in Text mode, from any mode, with a
    fresh 'mouse:down' listener: the one remembered before is detached,
    the new one is attached last and remembered, selection is off, the
    cursor is the text cursor, nothing is selected and both stacks are
    untouched. *)
Theorem startTextMode_replaces_listener e :
  (forall e0,
     endAll e = Done e0 ->
     exists e',
       startTextMode e = Done e' /\
       _state e' = states.TEXT /\
       _listener e' = Some (proxies e) /\
       proxies e' = S (proxies e) /\
       mouseDown (_canvas e') =
         (detached (_listener e) (mouseDown (_canvas e)) ++ [proxies e])%list /\
       selection (_canvas e') = false /\
       defaultCursor (_canvas e') = "text" /\
       activeObject (_canvas e') = None /\
       undoStack (_invoker e') = undoStack (_invoker e) /\
       redoStack (_invoker e') = redoStack (_invoker e)) /\
  (forall x e0, endAll e = Raised x e0 -> startTextMode e = Raised x e0).
Proof.
  split.
  - intros e0 E. pose proof (startTextMode_after _ _ E) as S.
    destruct (endAll_Done _ _ E) as [_ ->].
    destruct (afterEndAll_fields e)
      as [U [R [Mn [O [AO [AG [Sel [Cur [MD [Cr [Fd [St [Li [Pr T]]]]]]]]]]]]]].
    destruct (enteredText_fields (afterEndAll e))
      as [U1 [R1 [Mn1 [O1 [AO1 [AG1 [Sel1 [Cur1 [MD1 [Cr1 [Fd1 [St1 [Li1 [Pr1 T1]]]]]]]]]]]]]].
    exists (enteredText (afterEndAll e)). split; [exact S |].
    split; [exact St1 |].
    split; [rewrite Li1, Pr; reflexivity |].
    split; [rewrite Pr1, Pr; reflexivity |].
    split; [rewrite MD1, MD, Pr; reflexivity |].
    split; [exact Sel1 |]. split; [exact Cur1 |].
    split; [rewrite AO1; exact AO |].
    split; [rewrite U1; exact U | rewrite R1; exact R].
  - intros x e0 E. apply (exit_first_raised _ _ _ E).
Qed.

(** X5.  When [endAll] returns, [startTextMode] followed by
    [endTextMode] gives back the editor that [endAll] returned, apart
    from the remembered listener and the counter of listeners; the
    listener attached in between is gone. *)
Theorem startTextMode_endTextMode_round_trip e e0 :
  endAll e = Done e0 ->
  ~ In (proxies e) (mouseDown (_canvas e)) ->
  exists e1 e2,
    startTextMode e = Done e1 /\
    endTextMode e1 = Done e2 /\
    e2 = {| _invoker := _invoker e0; _state := states.NORMAL;
            _listener := Some (proxies e); proxies := S (proxies e);
            trace := trace e0 |}.
Proof.
  intros E Fresh. pose proof (startTextMode_after _ _ E) as S.
  assert (NE : forall o, In o (objects (_canvas e0)) -> emptyText o = false)
    by (intros o; apply (endAll_clean _ _ _ E)).
  destruct (endAll_Done _ _ E) as [_ ->].
  destruct (afterEndAll_fields e)
    as [U [R [Mn [O [AO [AG [Sel [Cur [MD [Cr [Fd [St [Li [Pr T]]]]]]]]]]]]]].
  destruct (enteredText_fields (afterEndAll e))
    as [U1 [R1 [Mn1 [O1 [AO1 [AG1 [Sel1 [Cur1 [MD1 [Cr1 [Fd1 [St1 [Li1 [Pr1 T1]]]]]]]]]]]]]].
  destruct (afterEndTextMode_fields (enteredText (afterEndAll e)))
    as [U2 [R2 [Mn2 [O2 [AO2 [AG2 [Sel2 [Cur2 [MD2 [Cr2 [Fd2 [St2 [Li2 [Pr2 T2]]]]]]]]]]]]]].
  assert (Fresh0 : ~ In (proxies e) (mouseDown (_canvas (afterEndAll e)))).
  { rewrite MD. destruct (_listener e) as [h |]; simpl; [| tauto].
    intros I. apply Fresh. eapply removeFirst_In; exact I. }
  assert (W1 : walkable (objects (_canvas (enteredText (afterEndAll e)))) = true)
    by (rewrite O1; apply clean_walkable, NE).
  exists (enteredText (afterEndAll e)), (afterEndTextMode (enteredText (afterEndAll e))).
  split; [exact S |].
  split.
  { destruct (endTextMode_cases (enteredText (afterEndAll e))) as [[_ E1] | [W' _]];
      [exact E1 | congruence]. }
  apply editor_ext.
  - rewrite U2, U1. reflexivity.
  - rewrite R2, R1. reflexivity.
  - rewrite Mn2, Mn1. reflexivity.
  - rewrite O2, O1.
    transitivity (filter (fun _ => true) (objects (_canvas (afterEndAll e))));
      [| apply filter_true].
    apply filter_ext. intros o.
    rewrite (sweptAway_none _ _ (lastOnly_clean _ NE)). reflexivity.
  - rewrite AO2, AO1, AO. reflexivity.
  - rewrite AG2, AG1. reflexivity.
  - rewrite Sel2. symmetry. exact Sel.
  - rewrite Cur2. symmetry. exact Cur.
  - rewrite MD2, Li1, MD1, Pr. simpl. apply removeFirst_last. exact Fresh0.
  - rewrite Cr2, Cr1. reflexivity.
  - rewrite Fd2, Fd1. reflexivity.
  - rewrite St2, St1. reflexivity.
  - rewrite Li2, Li1, Pr. reflexivity.
  - rewrite Pr2, Pr1, Pr. reflexivity.
  - rewrite T2, T1, O1, (removals_none _ (lastOnly_clean _ NE)). apply app_nil_r.
Qed.

(** ** What the invoker and the collaborators leave alone *)

Lemma keeps_seq R (f g : M) :
  (forall a b c, R a b -> R b c -> R a c) ->
  keeps R f -> keeps R g -> keeps R (f ;; g).
Proof.
  intros Tr F G e. unfold seq. specialize (F e).
  destruct (f e) as [e1 | x e1]; simpl in *; [| exact F].
  eapply Tr; [exact F | apply G].
Qed.

Section Settled.

Variable Q : Components -> Components -> Prop.
Hypothesis Q_refl : forall c, Q c c.
Hypothesis Q_trans : forall a b c, Q a b -> Q b c -> Q a c.
Hypothesis action_Q :
  forall d command c c' result raised,
    action d command c = Some (c', result, raised) -> Q c c'.
Hypothesis textTool_Q :
  forall method arguments c, Q c (fst (textTool method arguments c)).

Lemma settled_refl e : settled Q e e.
Proof. split; [reflexivity | apply Q_refl]. Qed.

Lemma settled_trans a b c : settled Q a b -> settled Q b c -> settled Q a c.
Proof.
  intros [S1 Q1] [S2 Q2]. split; [congruence | eapply Q_trans; eassumption].
Qed.

Lemma settled_same e e' :
  _state e' = _state e -> componentMap (_invoker e') = componentMap (_invoker e) ->
  settled Q e e'.
Proof. intros S C. split; [exact S | rewrite C; apply Q_refl]. Qed.

Lemma raiseAll_settled raised : keeps (settled Q) (raiseAll raised).
Proof.
  intros e. destruct (raiseAll_hushed raised e) as [e' [E H]]. rewrite E. simpl.
  apply settled_same; [apply (hushed_state _ _ H) | apply (hushed_components _ _ H)].
Qed.

Lemma applyCallback_settled callback arguments :
  keeps (settled Q) (applyCallback callback arguments).
Proof.
  intros e. destruct (applyCallback_quiet callback arguments e) as [I [S _]].
  apply settled_same; [exact S | rewrite I; reflexivity].
Qed.

Lemma clearRedoStack_settled : keeps (settled Q) _invoker_clearRedoStack.
Proof.
  intros e. destruct (_invoker_clearRedoStack_spec e) as [e' [E [_ [_ [C [S _]]]]]].
  rewrite E. apply settled_same; assumption.
Qed.

Lemma lift_settled (u : ImageEditor -> ImageEditor) :
  (forall e, _state (u e) = _state e) ->
  (forall e, componentMap (_invoker (u e)) = componentMap (_invoker e)) ->
  keeps (settled Q) (lift u).
Proof. intros S C e. apply settled_same; [apply S | apply C]. Qed.

Lemma whenUndoStackEmpty_settled f :
  keeps (settled Q) f -> keeps (settled Q) (whenUndoStackEmpty f).
Proof.
  intros F e. unfold whenUndoStackEmpty.
  destruct (undoStack (_invoker e)); [apply F | apply settled_refl].
Qed.

Lemma whenRedoStackEmpty_settled f :
  keeps (settled Q) f -> keeps (settled Q) (whenRedoStackEmpty f).
Proof.
  intros F e. unfold whenRedoStackEmpty.
  destruct (redoStack (_invoker e)); [apply F | apply settled_refl].
Qed.

Ltac settle :=
  repeat first
    [ apply keeps_seq; [exact settled_trans | |]
    | apply raiseAll_settled
    | apply applyCallback_settled
    | apply clearRedoStack_settled
    | apply whenUndoStackEmpty_settled
    | apply whenRedoStackEmpty_settled
    | apply lift_settled; intros; reflexivity ].

Lemma _invoker_invoke_settled command : keeps (settled Q) (_invoker_invoke command).
Proof.
  intros e. unfold _invoker_invoke.
  destruct (action Execute command (componentMap (_invoker e)))
    as [[[components result] raised] |] eqn:A.
  - rewrite !seq_lift.
    match goal with |- settled Q e (final (?f ?e0)) =>
      apply (settled_trans e e0);
        [split; [reflexivity | exact (action_Q _ _ _ _ _ _ A)] |];
      assert (K : keeps (settled Q) f)
        by (unfold _attachInvokerEvents, fire; settle);
      apply K
    end.
  - simpl. apply settled_same; reflexivity.
Qed.

Lemma _invoker_undo_settled : keeps (settled Q) _invoker_undo.
Proof.
  intros e. unfold _invoker_undo.
  destruct (undoStack (_invoker e)) as [| command rest]; [apply settled_refl |].
  destruct (action Undo command (componentMap (_invoker e)))
    as [[[components result] raised] |] eqn:A.
  - rewrite !seq_lift.
    match goal with |- settled Q e (final (?f ?e0)) =>
      apply (settled_trans e e0);
        [split; [reflexivity | exact (action_Q _ _ _ _ _ _ A)] |];
      assert (K : keeps (settled Q) f)
        by (unfold _attachInvokerEvents, fire; settle);
      apply K
    end.
  - simpl. apply settled_same; reflexivity.
Qed.

Lemma _invoker_redo_settled : keeps (settled Q) _invoker_redo.
Proof.
  intros e. unfold _invoker_redo.
  destruct (redoStack (_invoker e)) as [| command rest]; [apply settled_refl |].
  destruct (action Execute command (componentMap (_invoker e)))
    as [[[components result] raised] |] eqn:A.
  - rewrite !seq_lift.
    match goal with |- settled Q e (final (?f ?e0)) =>
      apply (settled_trans e e0);
        [split; [reflexivity | exact (action_Q _ _ _ _ _ _ A)] |];
      assert (K : keeps (settled Q) f)
        by (unfold _attachInvokerEvents, fire; settle);
      apply K
    end.
  - simpl. apply settled_same; reflexivity.
Qed.

Lemma text_call_settled method arguments : keeps (settled Q) (text_call method arguments).
Proof.
  intros e. unfold text_call, call. rewrite seq_lift.
  pose proof (textTool_Q method arguments (componentMap (_invoker e))) as T.
  change (componentMap (_invoker (record (Called compList.TEXT method arguments) e)))
    with (componentMap (_invoker e)).
  destruct (textTool method arguments (componentMap (_invoker e))) as [components raised].
  simpl in T. rewrite seq_lift.
  eapply settled_trans; [| apply raiseAll_settled].
  split; [reflexivity | exact T].
Qed.

Lemma clearUndoStack_settled : keeps (settled Q) _invoker_clearUndoStack.
Proof.
  intros e. unfold _invoker_clearUndoStack.
  destruct (undoStack (_invoker e)); [apply settled_refl |].
  assert (K : keeps (settled Q)
                (lift (setInvoker (setUndoStack (fun _ => []))) ;;
                 _attachInvokerEvents events.EMPTY_UNDO_STACK))
    by (unfold _attachInvokerEvents, fire; settle).
  apply K.
Qed.

Lemma changeText_settled text : keeps (settled Q) (changeText text).
Proof.
  intros e. unfold changeText.
  destruct (negb (states.eqb (getCurrentState e) states.TEXT)
            || negb (truthy (_canvas_getActiveObject e)));
    [apply settled_refl | apply text_call_settled].
Qed.

Lemma changeTextStyle_settled styleObj : keeps (settled Q) (changeTextStyle styleObj).
Proof.
  intros e. unfold changeTextStyle.
  destruct (negb (states.eqb (getCurrentState e) states.TEXT)
            || negb (truthy (_canvas_getActiveObject e)));
    [apply settled_refl | apply text_call_settled].
Qed.

(** [execute], [undo] and [redo] go through [endAll] and then through
    the invoker only. *)
Lemma execute_settled command e :
  settled Q (final (endAll e)) (final (execute command e)).
Proof.
  unfold execute, execute_body, seq.
  destruct (endAll e) as [e1 | x e1];
    [apply _invoker_invoke_settled | apply settled_refl].
Qed.

Lemma undo_settled e : settled Q (final (endAll e)) (final (undo e)).
Proof.
  unfold undo, seq.
  destruct (endAll e) as [e1 | x e1];
    [apply _invoker_undo_settled | apply settled_refl].
Qed.

Lemma redo_settled e : settled Q (final (endAll e)) (final (redo e)).
Proof.
  unfold redo, seq.
  destruct (endAll e) as [e1 | x e1];
    [apply _invoker_redo_settled | apply settled_refl].
Qed.

End Settled.

(** ** Starting a mode *)

Lemma startCropping_after e e0 :
  endAll e = Done e0 -> _state e <> states.CROP ->
  startCropping e = Done (startedCropping e0).
Proof.
  intros E N. unfold startCropping, getCurrentState.
  destruct (states_eqb_spec (_state e) states.CROP); [contradiction |].
  rewrite (seq_Done _ _ _ _ E). reflexivity.
Qed.

Lemma startFreeDrawing_after setting e e0 :
  endAll e = Done e0 -> _state e <> states.FREE_DRAWING ->
  startFreeDrawing setting e = Done (startedFreeDrawing setting e0).
Proof.
  intros E N. unfold startFreeDrawing, getCurrentState.
  destruct (states_eqb_spec (_state e) states.FREE_DRAWING); [contradiction |].
  rewrite (seq_Done _ _ _ _ E). reflexivity.
Qed.

(** A start method that has returned has entered its mode. *)
Lemma started_mode e e1 :
  (startCropping e = Done e1 -> _state e1 = states.CROP) /\
  (forall setting, startFreeDrawing setting e = Done e1 -> _state e1 = states.FREE_DRAWING).
Proof.
  split.
  - intros S. destruct (states_eqb_spec (_state e) states.CROP) as [C | C].
    + rewrite (proj1 (guarded_mode_changes e) C) in S. injection S as <-. exact C.
    + destruct (endAll e) as [e0 | x e0] eqn:E.
      * rewrite (startCropping_after _ _ E C) in S. injection S as <-. reflexivity.
      * rewrite (proj1 (exit_first_raised _ _ _ E) C) in S. discriminate.
  - intros setting S. destruct (states_eqb_spec (_state e) states.FREE_DRAWING) as [C | C].
    + rewrite (proj1 (proj2 (guarded_mode_changes e)) setting C) in S.
      injection S as <-. exact C.
    + destruct (endAll e) as [e0 | x e0] eqn:E.
      * rewrite (startFreeDrawing_after _ _ _ E C) in S. injection S as <-. reflexivity.
      * rewrite (proj1 (proj2 (exit_first_raised _ _ _ E)) setting C) in S. discriminate.
Qed.

(** X6.  Starting a mode twice is starting it once: when
    [startCropping] has returned, the editor is in Crop mode and a second
    [startCropping] changes nothing; likewise for [startFreeDrawing],
    whatever the second setting. *)
Theorem starting_twice_is_starting_once e :
  (forall e1,
     startCropping e = Done e1 ->
     _state e1 = states.CROP /\ startCropping e1 = Done e1) /\
  (forall setting setting' e1,
     startFreeDrawing setting e = Done e1 ->
     _state e1 = states.FREE_DRAWING /\ startFreeDrawing setting' e1 = Done e1).
Proof.
  split.
  - intros e1 S. pose proof (proj1 (started_mode e e1) S) as C.
    split; [exact C | apply (proj1 (guarded_mode_changes e1)); exact C].
  - intros setting setting' e1 S. pose proof (proj2 (started_mode e e1) setting S) as C.
    split; [exact C | apply (proj1 (proj2 (guarded_mode_changes e1))); exact C].
Qed.


(** ** The mode after a call *)

Lemma perform_cases m e :
  perform m e = Done e \/ perform m e = Raised TypeError e \/
  exists command, perform m e = execute command e.
Proof.
  destruct m as [ | | | | a | a | | u n | f n];
    try (right; right; eexists; reflexivity).
  - destruct (loadImageFromURL_cases u n e) as [[_ L] | [_ L]];
      [left; exact L | right; right; eexists; exact L].
  - simpl. unfold loadImageFromFile.
    destruct (truthy f) eqn:T; simpl; [| left; reflexivity].
    destruct f as [ | | b | z | str | o | g | i | file | fields];
      try (right; left; reflexivity).
    match goal with |- context [loadImageFromURL ?u ?n e] =>
      destruct (loadImageFromURL_cases u n e) as [[_ L] | [_ L]] end;
      [left; exact L | right; right; eexists; exact L].
Qed.


Lemma state_after_execute command e e1 :
  endAll e = Done e1 -> _state (final (execute command e)) = states.NORMAL.
Proof.
  intros E.
  assert (H : settled (fun _ _ => True) (final (endAll e)) (final (execute command e)))
    by (apply execute_settled; auto).
  destruct H as [S _]. rewrite S, E. apply (endAll_state _ _ E).
Qed.

Lemma state_after_undo e e1 :
  endAll e = Done e1 -> _state (final (undo e)) = states.NORMAL.
Proof.
  intros E.
  assert (H : settled (fun _ _ => True) (final (endAll e)) (final (undo e)))
    by (apply undo_settled; auto).
  destruct H as [S _]. rewrite S, E. apply (endAll_state _ _ E).
Qed.

Lemma state_after_redo e e1 :
  endAll e = Done e1 -> _state (final (redo e)) = states.NORMAL.
Proof.
  intros E.
  assert (H : settled (fun _ _ => True) (final (endAll e)) (final (redo e)))
    by (apply redo_settled; auto).
  destruct H as [S _]. rewrite S, E. apply (endAll_state _ _ E).
Qed.


(** X9.  [removeActiveObject] reads its target before [endAll] clears
    the selection: when [endAll] returns, the command runs on the editor
    it returned, where nothing is selected, with the object or group that
    was selected at the call; with nothing selected at the call, the
    target of the command is [null]. *)
Theorem removeActiveObject_takes_its_target_first e e1 :
  endAll e = Done e1 ->
  activeObject (_canvas e1) = None /\ activeGroup (_canvas e1) = None /\
  removeActiveObject e =
    _invoker_invoke
      (commandFactory_create commands.REMOVE_OBJECT
         [js_or (_canvas_getActiveObject e) (_canvas_getActiveGroup e)]) e1 /\
  (activeObject (_canvas e) = None -> activeGroup (_canvas e) = None ->
   removeActiveObject e =
     _invoker_invoke (commandFactory_create commands.REMOVE_OBJECT [VNull]) e1).
Proof.
  intros E. destruct (endAll_state _ _ E) as [_ [AO AG]].
  split; [exact AO |]. split; [exact AG |].
  assert (R : removeActiveObject e =
              _invoker_invoke
                (commandFactory_create commands.REMOVE_OBJECT
                   [js_or (_canvas_getActiveObject e) (_canvas_getActiveGroup e)]) e1).
  { unfold removeActiveObject. apply execute_eq. exact E. }
  split; [exact R |].
  intros NO NG. rewrite R. unfold _canvas_getActiveObject, _canvas_getActiveGroup.
  rewrite NO, NG. reflexivity.
Qed.

(** X10.  [loadImageFromFile] loads the object URL of the file under the
    given name when that one is truthy and under the file's own name
    otherwise; a file without a name and without a given name is ignored
    without an error. *)
Theorem loadImageFromFile_names_the_image f imageName e :
  (truthy imageName = true ->
   loadImageFromFile (VFile f) imageName e =
     execute (loadImageCommand (VString (createObjectURL f)) imageName) e) /\
  (truthy imageName = false -> name f <> "" ->
   loadImageFromFile (VFile f) imageName e =
     execute (loadImageCommand (VString (createObjectURL f)) (VString (name f))) e) /\
  (truthy imageName = false -> name f = "" ->
   loadImageFromFile (VFile f) imageName e = Done e).
Proof.
  unfold loadImageFromFile, js_or, loadImageFromURL, loadImageFromURL_body. simpl.
  repeat split; intros T; rewrite T; simpl; rewrite ?T; simpl.
  - reflexivity.
  - intros N. destruct (name f) as [| c s]; [contradiction | reflexivity].
  - intros N. rewrite N. reflexivity.
Qed.

(** ** The listeners of the canvas *)

Lemma recordAll_nil e : recordAll [] e = e.
Proof. destruct e; unfold recordAll; simpl. rewrite app_nil_r. reflexivity. Qed.

Lemma recordAll_app a b e : recordAll (a ++ b) e = recordAll b (recordAll a e).
Proof. unfold recordAll; simpl. rewrite app_assoc. reflexivity. Qed.

(** X12.  Canvas events that are removals, crop zones or stamped objects
    only notify: the listeners return, and the editor differs from the one
    before in its log alone, which gains the announcements in order. *)
Theorem managed_events_leave_the_history_alone evs e :
  forallb managed evs = true ->
  raiseAll evs e = Done (recordAll (flat_map announcement evs) e).
Proof.
  revert e. induction evs as [| ev evs IH]; intros e Mg; simpl.
  - rewrite recordAll_nil. reflexivity.
  - simpl in Mg. apply andb_true_iff in Mg. destruct Mg as [Mev Mg].
    rewrite recordAll_app. unfold seq.
    destruct ev as [obj | obj]; simpl in *.
    + unfold onObjectAdded. destruct (isType obj "cropzone"); simpl in *.
      * rewrite recordAll_nil. apply IH; exact Mg.
      * rewrite Mev. simpl. apply IH; exact Mg.
    + apply IH; exact Mg.
Qed.

(** ** The text collaborator *)

Lemma text_call_returns method arguments e :
  exists e' new,
    text_call method arguments e = Done e' /\
    _state e' = _state e /\ _listener e' = _listener e /\
    trace e' = (trace e ++ Called compList.TEXT method arguments :: new)%list /\
    Forall notRan new.
Proof.
  unfold text_call, call. rewrite seq_lift.
  destruct (textTool method arguments
              (componentMap (_invoker (record (Called compList.TEXT method arguments) e))))
    as [components raised].
  rewrite seq_lift.
  match goal with |- context [raiseAll raised ?e0] =>
    destruct (raiseAll_hushed raised e0) as [e' [E H]] end.
  destruct (hushed_trace _ _ H) as [new [T F]].
  exists e', new. split; [exact E |].
  split; [rewrite (hushed_state _ _ H); reflexivity |].
  split; [rewrite (hushed_listener _ _ H); reflexivity |].
  split; [| exact F].
  rewrite T. simpl. rewrite <- app_assoc. reflexivity.
Qed.

Lemma longer_trace e e' t new :
  trace e' = (trace e ++ t :: new)%list -> e' <> e.
Proof.
  intros T ->. apply (f_equal (@List.length _)) in T.
  rewrite length_app in T. simpl in T. lia.
Qed.

(** X13.  [changeText] and [changeTextStyle] return the editor unchanged
    exactly when the mode is not Text or no object is active.  In Text
    mode with an active object they return after calling the text
    component, with 'change' or 'setStyle', the active object and the
    argument; the call is the first new entry of the log, no command
    action runs, and the mode stays Text. *)
Theorem text_tool_is_reached_exactly_when_guard_passes text styleObj e :
  (changeText text e = Done e <->
   _state e <> states.TEXT \/ truthy (_canvas_getActiveObject e) = false) /\
  (changeTextStyle styleObj e = Done e <->
   _state e <> states.TEXT \/ truthy (_canvas_getActiveObject e) = false) /\
  (_state e = states.TEXT -> truthy (_canvas_getActiveObject e) = true ->
   (exists e' new,
      changeText text e = Done e' /\
      trace e' =
        (trace e ++
         Called compList.TEXT "change" [_canvas_getActiveObject e; text] :: new)%list /\
      Forall notRan new /\ _state e' = states.TEXT) /\
   (exists e' new,
      changeTextStyle styleObj e = Done e' /\
      trace e' =
        (trace e ++
         Called compList.TEXT "setStyle" [_canvas_getActiveObject e; styleObj] :: new)%list /\
      Forall notRan new /\ _state e' = states.TEXT)).
Proof.
  assert (Passes : _state e = states.TEXT -> truthy (_canvas_getActiveObject e) = true ->
                   changeText text e =
                     text_call "change" [_canvas_getActiveObject e; text] e /\
                   changeTextStyle styleObj e =
                     text_call "setStyle" [_canvas_getActiveObject e; styleObj] e).
  { intros S T. unfold changeText, changeTextStyle, getCurrentState.
    rewrite S, T. split; reflexivity. }
  assert (Guarded : _state e <> states.TEXT \/ truthy (_canvas_getActiveObject e) = false ->
                    changeText text e = Done e /\ changeTextStyle styleObj e = Done e).
  { intros G. unfold changeText, changeTextStyle, getCurrentState.
    destruct G as [G | G].
    - destruct (states_eqb_spec (_state e) states.TEXT); [contradiction |].
      split; reflexivity.
    - rewrite G. simpl. rewrite orb_true_r. split; reflexivity. }
  assert (Reached : forall method arguments,
            exists e' new,
              text_call method arguments e = Done e' /\
              trace e' = (trace e ++ Called compList.TEXT method arguments :: new)%list /\
              Forall notRan new /\ _state e' = _state e).
  { intros method arguments.
    destruct (text_call_returns method arguments e) as [e' [new [E [S [_ [T F]]]]]].
    exists e', new. auto. }
  assert (Decide : (_state e <> states.TEXT \/ truthy (_canvas_getActiveObject e) = false) \/
                   (_state e = states.TEXT /\ truthy (_canvas_getActiveObject e) = true)).
  { destruct (states_eqb_spec (_state e) states.TEXT) as [S | S]; [| left; left; exact S].
    destruct (truthy (_canvas_getActiveObject e)); [right; auto | left; right; reflexivity]. }
  split; [| split].
  - split; [| intros G; apply (Guarded G)].
    intros H. destruct Decide as [G | [S T]]; [exact G |].
    rewrite (proj1 (Passes S T)) in H.
    destruct (Reached "change" [_canvas_getActiveObject e; text]) as [e' [new [E [Tr _]]]].
    rewrite E in H. injection H as H. exfalso. exact (longer_trace _ _ _ _ Tr H).
  - split; [| intros G; apply (Guarded G)].
    intros H. destruct Decide as [G | [S T]]; [exact G |].
    rewrite (proj2 (Passes S T)) in H.
    destruct (Reached "setStyle" [_canvas_getActiveObject e; styleObj])
      as [e' [new [E [Tr _]]]].
    rewrite E in H. injection H as H. exfalso. exact (longer_trace _ _ _ _ Tr H).
  - intros S T. destruct (Passes S T) as [C1 C2]. rewrite C1, C2, <- S. split; apply Reached.
Qed.

(** X14.  [addText] always returns in Text mode, from every mode, with
    the remembered listener as it was; the text component is called with
    'add', an absent text replaced by the empty string and absent settings
    by an empty object, and no command action runs. *)
Theorem addText_enters_text_mode_without_listener text settings e :
  exists e' new,
    addText text settings e = Done e' /\
    _state e' = states.TEXT /\
    _listener e' = _listener e /\
    trace e' =
      (trace e ++
       Called compList.TEXT "add" [js_or text (VString ""); js_or settings (VRecord [])]
       :: new)%list /\
    Forall notRan new /\
    truthy (js_or settings (VRecord [])) = true /\
    (truthy text = false -> js_or text (VString "") = VString "").
Proof.
  unfold addText, getCurrentState.
  set (e0 := if negb (states.eqb (_state e) states.TEXT) then setState states.TEXT e else e).
  assert (F0 : _state e0 = states.TEXT /\ _listener e0 = _listener e /\ trace e0 = trace e).
  { subst e0. destruct (states_eqb_spec (_state e) states.TEXT); simpl; auto. }
  destruct F0 as [S0 [L0 T0]].
  destruct (text_call_returns "add" [js_or text (VString ""); js_or settings (VRecord [])] e0)
    as [e' [new [E [S [L [T F]]]]]].
  exists e', new. split.
  { unfold seq.
    replace (if negb (states.eqb (_state e) states.TEXT)
             then Done (setState states.TEXT e) else Done e) with (Done e0)
      by (subst e0; destruct (negb (states.eqb (_state e) states.TEXT)); reflexivity).
    exact E. }
  split; [congruence |]. split; [congruence |].
  split; [rewrite T, T0; reflexivity |]. split; [exact F |].
  split.
  - unfold js_or. destruct (truthy settings) eqn:Ts; [exact Ts | reflexivity].
  - intros Tt. unfold js_or. rewrite Tt. reflexivity.
Qed.

(** ** A load, from the crop or from the network *)

Lemma _invoker_invoke_reaches_callback command e components result raised :
  action Execute command (componentMap (_invoker e)) = Some (components, result, raised) ->
  exists e2,
    _invoker_invoke command e =
      applyCallback (executeCallback command) result
        (record (Fired events.PUSH_UNDO_STACK []) e2) /\
    redoStack (_invoker e2) = [] /\
    (exists below, undoStack (_invoker e2) = command :: below) /\
    _state e2 = _state e.
Proof.
  intros A.
  set (e0 := onComponents (fun _ => components) (record (Ran Execute command (_state e)) e)).
  destruct (raiseAll_hushed raised e0) as [e1 [E1 H1]].
  destruct (_invoker_clearRedoStack_spec (setInvoker (setUndoStack (cons command)) e1))
    as [e2 [E2 [R2 [U2 [C2 [S2 T2]]]]]].
  exists e2. split; [| split; [exact R2 | split]].
  - unfold _invoker_invoke; rewrite A. rewrite !seq_lift. fold e0.
    rewrite (seq_Done _ _ _ _ E1), seq_lift, (seq_Done _ _ _ _ E2). reflexivity.
  - rewrite U2. eexists; reflexivity.
  - rewrite S2. simpl. rewrite (hushed_state _ _ H1). reflexivity.
Qed.

(** X11.  When the action of a load yields [null], [loadImageFromURL]
    throws a TypeError from its callback, after the command was pushed:
    the editor is left in Normal mode, with the load command on top of the
    undo stack, an empty redo stack, and the push notification as the last
    entry of the log. *)
Theorem failed_load_raises_after_the_push url imageName e e1 components raised :
  truthy url = true -> truthy imageName = true ->
  endAll e = Done e1 ->
  action Execute (loadImageCommand url imageName) (componentMap (_invoker e1)) =
    Some (components, [VNull], raised) ->
  exists e' before,
    loadImageFromURL url imageName e = Raised TypeError e' /\
    redoStack (_invoker e') = [] /\
    (exists below, undoStack (_invoker e') = loadImageCommand url imageName :: below) /\
    _state e' = states.NORMAL /\
    trace e' = (before ++ [Fired events.PUSH_UNDO_STACK []])%list.
Proof.
  intros Tu Tn E A.
  destruct (loadImageFromURL_cases url imageName e) as [[F _] | [_ L]];
    [rewrite Tu, Tn in F; discriminate |].
  destruct (_invoker_invoke_reaches_callback _ _ _ _ _ A) as [e2 [I [R [U S]]]].
  exists (record (Fired events.PUSH_UNDO_STACK []) e2), (trace e2).
  split; [rewrite L, (execute_eq _ _ _ E), I; reflexivity |].
  split; [exact R |]. split; [exact U |].
  split; [| reflexivity].
  simpl. rewrite S. apply (endAll_state _ _ E).
Qed.

(** X17.  In Crop mode with a region drawn, [endCropping] with a truthy
    argument does not load when the region's url or name is empty; when
    both are non-empty and the action of the load succeeds, the editor
    ends in Normal mode with the load command on top of the undo stack
    and an empty redo stack. *)
Theorem applied_crop_is_loaded isApplying d e e1 :
  _state e = states.CROP ->
  truthy isApplying = true ->
  region (cropper (componentMap (_invoker e))) = Some d ->
  (url d = "" \/ imageName d = "" ->
   endCropping isApplying e = Done (cropEnded isApplying e)) /\
  (url d <> "" -> imageName d <> "" ->
   endAll (cropEnded isApplying e) = Done e1 ->
   action Execute (loadImageCommand (VString (url d)) (VString (imageName d)))
     (componentMap (_invoker e1)) <> None ->
   _state (final (endCropping isApplying e)) = states.NORMAL /\
   redoStack (_invoker (final (endCropping isApplying e))) = [] /\
   exists below,
     undoStack (_invoker (final (endCropping isApplying e))) =
       loadImageCommand (VString (url d)) (VString (imageName d)) :: below).
Proof.
  intros C T Rg.
  assert (E : endCropping isApplying e =
              loadImageFromURL (VString (url d)) (VString (imageName d))
                (cropEnded isApplying e)).
  { unfold endCropping, endCropping_body, getCurrentState, cropper_end_data.
    rewrite C, T, Rg. reflexivity. }
  split.
  - intros Z. rewrite E.
    destruct (loadImageFromURL_cases (VString (url d)) (VString (imageName d))
                (cropEnded isApplying e)) as [[_ L] | [F _]]; [exact L |].
    simpl in F. destruct Z as [Z | Z]; rewrite Z in F; simpl in F;
      [rewrite andb_false_r in F |]; discriminate.
  - intros Nu Nn E1 A. rewrite E.
    destruct (loadImageFromURL_cases (VString (url d)) (VString (imageName d))
                (cropEnded isApplying e)) as [[F _] | [_ L]].
    + simpl in F. destruct (url d); [contradiction |].
      destruct (imageName d); [contradiction | discriminate].
    + rewrite L, (execute_eq _ _ _ E1).
      destruct (action Execute (loadImageCommand (VString (url d)) (VString (imageName d)))
                  (componentMap (_invoker e1)))
        as [[[components result] raised] |] eqn:A'; [| congruence].
      destruct (_invoker_invoke_performed _ e1 _ _ _ A') as [R [B [S _]]].
      split; [| split; [exact R | exact B]].
      rewrite S. apply (endAll_state _ _ E1).
Qed.

(** ** The keyboard *)

Lemma seq_skip (f : M) e : (f ;; skip) e = f e.
Proof. unfold seq, skip. destruct (f e); reflexivity. Qed.

(** X15.  [_onKeyDown] does nothing on a key event without Ctrl or Meta,
    or whose key is neither Z nor Y.  When the two key codes differ,
    Ctrl or Meta with Z is [undo] and with Y is [redo]; so, when [endAll]
    returns, the handler leaves the editor as it was or in Normal
    mode. *)
Theorem keydown_runs_undo_or_redo keyCodes_Z keyCodes_Y ev e :
  ((ctrlKey ev || metaKey ev = false \/
    (keyCode ev <> keyCodes_Z /\ keyCode ev <> keyCodes_Y)) ->
   _onKeyDown keyCodes_Z keyCodes_Y ev e = Done e) /\
  (keyCodes_Z <> keyCodes_Y -> ctrlKey ev || metaKey ev = true ->
   (keyCode ev = keyCodes_Z -> _onKeyDown keyCodes_Z keyCodes_Y ev e = undo e) /\
   (keyCode ev = keyCodes_Y -> _onKeyDown keyCodes_Z keyCodes_Y ev e = redo e)) /\
  (keyCodes_Z <> keyCodes_Y ->
   forall e1, endAll e = Done e1 ->
   final (_onKeyDown keyCodes_Z keyCodes_Y ev e) = e \/
   _state (final (_onKeyDown keyCodes_Z keyCodes_Y ev e)) = states.NORMAL).
Proof.
  assert (Plain : (ctrlKey ev || metaKey ev = false \/
                   (keyCode ev <> keyCodes_Z /\ keyCode ev <> keyCodes_Y)) ->
                  _onKeyDown keyCodes_Z keyCodes_Y ev e = Done e).
  { intros [M | [NZ NY]]; unfold _onKeyDown.
    - rewrite M. reflexivity.
    - apply Nat.eqb_neq in NZ, NY. rewrite NZ, NY, !andb_false_r. reflexivity. }
  assert (Short : keyCodes_Z <> keyCodes_Y -> ctrlKey ev || metaKey ev = true ->
                  (keyCode ev = keyCodes_Z ->
                   _onKeyDown keyCodes_Z keyCodes_Y ev e = undo e) /\
                  (keyCode ev = keyCodes_Y ->
                   _onKeyDown keyCodes_Z keyCodes_Y ev e = redo e)).
  { intros D M. unfold _onKeyDown. rewrite M. simpl. split; intros K; rewrite K.
    - rewrite Nat.eqb_refl. apply Nat.eqb_neq in D. rewrite D. apply seq_skip.
    - rewrite Nat.eqb_refl. apply not_eq_sym, Nat.eqb_neq in D. rewrite D. reflexivity. }
  split; [exact Plain |]. split; [exact Short |].
  intros D e1 E.
  destruct (ctrlKey ev || metaKey ev) eqn:M;
    [| left; rewrite Plain; [reflexivity | left; reflexivity]].
  destruct (Nat.eq_dec (keyCode ev) keyCodes_Z) as [KZ | KZ].
  - right. rewrite (proj1 (Short D eq_refl) KZ). apply (state_after_undo _ _ E).
  - destruct (Nat.eq_dec (keyCode ev) keyCodes_Y) as [KY | KY].
    + right. rewrite (proj2 (Short D eq_refl) KY). apply (state_after_redo _ _ E).
    + left. rewrite Plain; [reflexivity | right; split; assumption].
Qed.

(** ** The tools and the mode *)

Lemma sameTools_refl c : sameTools c c.
Proof. split; reflexivity. Qed.

Lemma sameTools_trans a b c : sameTools a b -> sameTools b c -> sameTools a c.
Proof. intros [C1 D1] [C2 D2]. split; congruence. Qed.

Lemma toolsAgree_settled e e' :
  toolsAgree e -> settled sameTools e e' -> toolsAgree e'.
Proof.
  intros [C D] [S [Qc Qd]]. unfold toolsAgree. rewrite S, Qc, Qd. split; assumption.
Qed.

Lemma toolsAgree_afterEndTextMode e : toolsAgree e -> toolsAgree (afterEndTextMode e).
Proof.
  intros [C D].
  destruct (afterEndTextMode_fields e)
    as [_ [_ [_ [_ [_ [_ [_ [_ [_ [Cr [Fd [St _]]]]]]]]]]]].
  unfold toolsAgree. rewrite Cr, Fd, St, C, D.
  destruct (_state e); split; reflexivity.
Qed.

Lemma toolsAgree_thrown gone e : toolsAgree e -> toolsAgree (swept gone (textLeft e)).
Proof.
  intros [C D].
  destruct (thrown_fields gone e) as [_ [_ [_ [_ [_ [_ [Cr [Fd [St _]]]]]]]]].
  unfold toolsAgree. rewrite Cr, Fd, St, C, D.
  destruct (_state e); split; reflexivity.
Qed.

Lemma toolsAgree_afterEndFreeDrawing e :
  toolsAgree e -> toolsAgree (afterEndFreeDrawing e).
Proof.
  destruct e as [[u r [m c cr fd]] st li pr tr].
  unfold toolsAgree, afterEndFreeDrawing. simpl. intros [C D].
  destruct st; simpl; split; assumption || reflexivity.
Qed.

Lemma toolsAgree_afterEndAll e : toolsAgree e -> toolsAgree (afterEndAll e).
Proof.
  intros [C D].
  destruct (afterEndAll_fields e)
    as [_ [_ [_ [_ [_ [_ [_ [_ [_ [Cr [Fd [St _]]]]]]]]]]]].
  unfold toolsAgree. rewrite Cr, Fd, St.
  destruct (states.eqb (_state e) states.CROP);
    destruct (states.eqb (_state e) states.FREE_DRAWING); split; assumption || reflexivity.
Qed.

Lemma toolsAgree_endTextMode e : toolsAgree e -> toolsAgree (final (endTextMode e)).
Proof.
  intros A. destruct (endTextMode_cases e) as [[_ E] | [_ [gone [E _]]]]; rewrite E; simpl;
    [apply toolsAgree_afterEndTextMode | apply toolsAgree_thrown]; exact A.
Qed.

Lemma toolsAgree_endAll e : toolsAgree e -> toolsAgree (final (endAll e)).
Proof.
  intros A. destruct (endAll_cases e) as [[_ E] | [_ [gone [E _]]]]; rewrite E; simpl;
    [apply toolsAgree_afterEndAll | apply toolsAgree_thrown]; exact A.
Qed.

Lemma toolsAgree_cropEnded isApplying e :
  _state e = states.CROP -> toolsAgree e -> toolsAgree (cropEnded isApplying e).
Proof.
  destruct e as [[u r [m c cr fd]] st li pr tr].
  unfold toolsAgree. simpl. intros -> [C D]. split; [reflexivity | exact D].
Qed.

Lemma endCropping_in_crop_mode isApplying e :
  _state e = states.CROP ->
  endCropping isApplying e = Done (cropEnded isApplying e) \/
  exists url imageName,
    endCropping isApplying e = loadImageFromURL url imageName (cropEnded isApplying e).
Proof.
  intros C. destruct (truthy isApplying) eqn:T.
  - destruct (region (cropper (componentMap (_invoker e)))) as [d |] eqn:Rg.
    + right. exists (VString (url d)), (VString (imageName d)).
      unfold endCropping, endCropping_body, getCurrentState, cropper_end_data.
      rewrite C, T, Rg. reflexivity.
    + left. unfold endCropping, endCropping_body, getCurrentState, cropper_end_data.
      rewrite C, T, Rg. reflexivity.
  - left. unfold endCropping. rewrite (endCropping_body_cancel _ _ _ T), C. reflexivity.
Qed.

Section Tools.

Hypothesis alone : leavesToolsAlone.

Lemma toolsAgree_through (f : M) e :
  (forall Q : Components -> Components -> Prop,
     (forall c, Q c c) -> (forall a b c, Q a b -> Q b c -> Q a c) ->
     (forall d command c c' result raised,
        action d command c = Some (c', result, raised) -> Q c c') ->
     (forall method arguments c, Q c (fst (textTool method arguments c))) ->
     settled Q (final (endAll e)) (final (f e))) ->
  toolsAgree e -> toolsAgree (final (f e)).
Proof.
  intros F A. apply (toolsAgree_settled (final (endAll e))).
  - apply toolsAgree_endAll. exact A.
  - apply F; [exact sameTools_refl | exact sameTools_trans | apply alone | apply alone].
Qed.

Lemma toolsAgree_kept (f : M) e :
  (forall Q : Components -> Components -> Prop,
     (forall c, Q c c) -> (forall a b c, Q a b -> Q b c -> Q a c) ->
     (forall d command c c' result raised,
        action d command c = Some (c', result, raised) -> Q c c') ->
     (forall method arguments c, Q c (fst (textTool method arguments c))) ->
     keeps (settled Q) f) ->
  toolsAgree e -> toolsAgree (final (f e)).
Proof.
  intros F A. apply (toolsAgree_settled e); [exact A |].
  apply F; [exact sameTools_refl | exact sameTools_trans | apply alone | apply alone].
Qed.

Lemma toolsAgree_execute command e :
  toolsAgree e -> toolsAgree (final (execute command e)).
Proof.
  apply toolsAgree_through. intros Q R T A X. apply execute_settled; assumption.
Qed.

Lemma toolsAgree_loadImageFromURL url imageName e :
  toolsAgree e -> toolsAgree (final (loadImageFromURL url imageName e)).
Proof.
  intros A. destruct (loadImageFromURL_cases url imageName e) as [[_ L] | [_ L]]; rewrite L.
  - exact A.
  - apply toolsAgree_execute. exact A.
Qed.

Lemma toolsAgree_enter c e : toolsAgree e -> toolsAgree (final (enter c e)).
Proof.
  intros A. pose proof (toolsAgree_endAll e A) as A0.
  destruct c; simpl enter.
  - (* startCropping *)
    destruct (states_eqb_spec (_state e) states.CROP) as [C | C].
    + rewrite (proj1 (guarded_mode_changes e) C). exact A.
    + destruct (endAll e) as [e0 | x e0] eqn:E; simpl in A0.
      * rewrite (startCropping_after _ _ E C).
        destruct (endAll_state _ _ E) as [N _]. revert A0 N. clear.
        destruct e0 as [[u r [m c cr fd]] st li pr tr].
        unfold toolsAgree. simpl. intros [_ D] ->. split; [reflexivity | exact D].
      * rewrite (proj1 (exit_first_raised _ _ _ E) C). exact A0.
  - (* endCropping *)
    destruct (states_eqb_spec (_state e) states.CROP) as [C | C].
    + destruct (endCropping_in_crop_mode isApplying e C) as [E | [url [imageName E]]];
        rewrite E.
      * apply toolsAgree_cropEnded; assumption.
      * apply toolsAgree_loadImageFromURL. apply toolsAgree_cropEnded; assumption.
    + rewrite (proj2 (proj2 (proj2 (guarded_mode_changes e))) isApplying C). exact A.
  - (* startFreeDrawing *)
    destruct (states_eqb_spec (_state e) states.FREE_DRAWING) as [C | C].
    + rewrite (proj1 (proj2 (guarded_mode_changes e)) setting C). exact A.
    + destruct (endAll e) as [e0 | x e0] eqn:E; simpl in A0.
      * rewrite (startFreeDrawing_after _ _ _ E C).
        destruct (endAll_state _ _ E) as [N _]. revert A0 N. clear.
        destruct e0 as [[u r [m c cr fd]] st li pr tr].
        unfold toolsAgree. simpl. intros [C0 _] ->. split; [exact C0 | reflexivity].
      * rewrite (proj1 (proj2 (exit_first_raised _ _ _ E)) setting C). exact A0.
  - rewrite endFreeDrawing_eq. apply toolsAgree_afterEndFreeDrawing. exact A.
  - (* startTextMode *)
    destruct (endAll e) as [e0 | x e0] eqn:E; simpl in A0.
    + rewrite (startTextMode_after _ _ E).
      destruct (endAll_state _ _ E) as [N _]. revert A0 N. clear.
      destruct e0 as [[u r [m c cr fd]] st li pr tr].
      unfold toolsAgree. simpl. intros [C0 D0] ->. split; assumption.
    + rewrite (proj1 (proj2 (proj2 (exit_first_raised _ _ _ E)))). exact A0.
  - apply toolsAgree_endTextMode. exact A.
  - exact A0.
  - rewrite deactivateAll_eq. clear A0.
    destruct e as [[u r [m c cr fd]] st li pr tr]. exact A.
  - apply toolsAgree_through; [| exact A]. intros Q R T X Y. apply undo_settled; assumption.
  - apply toolsAgree_through; [| exact A]. intros Q R T X Y. apply redo_settled; assumption.
  - apply toolsAgree_execute. exact A.
  - destruct (perform_cases m e) as [P | [P | [command P]]]; rewrite P;
      [exact A | exact A | apply toolsAgree_execute; exact A].
  - apply toolsAgree_kept; [| exact A]. intros Q R T X Y. apply changeText_settled; assumption.
  - apply toolsAgree_kept; [| exact A]. intros Q R T X Y.
    apply changeTextStyle_settled; assumption.
  - apply toolsAgree_kept; [| exact A]. intros Q R T X Y.
    apply clearUndoStack_settled; assumption.
  - apply toolsAgree_kept; [| exact A]. intros Q R T X Y.
    apply clearRedoStack_settled; assumption.
Qed.

Lemma addText_settled text settings e :
  _state e <> states.TEXT ->
  settled sameTools (setState states.TEXT e) (final (addText text settings e)).
Proof.
  intros N. unfold addText, seq, getCurrentState.
  destruct (states_eqb_spec (_state e) states.TEXT); [contradiction |]. simpl.
  apply text_call_settled;
    [exact sameTools_refl | exact sameTools_trans | apply alone].
Qed.

End Tools.


End Further.

(** * The further properties at concrete inputs *)

(** The sample collaborators leave the cropper and the brush alone. *)
Lemma sample_leavesToolsAlone : leavesToolsAlone.
Proof.
  split.
  - intros d command c c' result raised H.
    destruct d; simpl in H; unfold sample_execute, sample_undo in H;
      repeat match type of H with
             | context [match ?x with _ => _ end] => destruct x
             end;
      try discriminate; inversion H; subst; split; reflexivity.
  - intros method arguments c. simpl. unfold sample_textTool.
    repeat match goal with
           | |- context [match ?x with _ => _ end] => destruct x
           end; split; reflexivity.
Qed.


Lemma endAll_idempotent_witness :
  endAll textSession = Done (afterEndAll textSession) /\
  NoDup (mouseDown (_canvas textSession)) /\
  endAll (afterEndAll textSession) = Done (afterEndAll textSession).
Proof.
  assert (E : endAll textSession = Done (afterEndAll textSession))
    by (apply endAll_eq; reflexivity).
  assert (N : NoDup (mouseDown (_canvas textSession)))
    by (constructor; [intros [] | constructor]).
  split; [exact E |]. split; [exact N |].
  exact (endAll_idempotent textSession (afterEndAll textSession) E N).
Defined.


Lemma startTextMode_replaces_listener_witness :
  endAll textSession = Done (afterEndAll textSession) /\
  exists e',
    startTextMode textSession = Done e' /\
    _state e' = states.TEXT /\
    _listener e' = Some 1 /\
    mouseDown (_canvas e') = [1].
Proof.
  assert (E : endAll textSession = Done (afterEndAll textSession))
    by (apply endAll_eq; reflexivity).
  split; [exact E |].
  destruct (proj1 (startTextMode_replaces_listener textSession) _ E)
    as [e' [S [St [Li [_ [MD _]]]]]].
  exists e'. split; [exact S |]. split; [exact St |]. split; [exact Li | exact MD].
Defined.

Lemma startTextMode_endTextMode_round_trip_witness :
  endAll cropSession = Done exitedCrop /\
  ~ In (proxies cropSession) (mouseDown (_canvas cropSession)) /\
  exists e1 e2,
    startTextMode cropSession = Done e1 /\
    endTextMode e1 = Done e2 /\
    e2 = {| _invoker := _invoker exitedCrop; _state := states.NORMAL;
            _listener := Some (proxies cropSession); proxies := S (proxies cropSession);
            trace := trace exitedCrop |}.
Proof.
  assert (E : endAll cropSession = Done exitedCrop) by (vm_compute; reflexivity).
  assert (N : ~ In (proxies cropSession) (mouseDown (_canvas cropSession)))
    by (intros []).
  split; [exact E |]. split; [exact N |].
  exact (startTextMode_endTextMode_round_trip cropSession exitedCrop E N).
Defined.

Lemma starting_twice_is_starting_once_witness :
  startCropping (init 300 200) = Done startedCrop /\
  _state startedCrop = states.CROP /\
  startCropping startedCrop = Done startedCrop.
Proof.
  assert (S : startCropping (init 300 200) = Done startedCrop) by (vm_compute; reflexivity).
  split; [exact S |].
  exact (proj1 (starting_twice_is_starting_once (init 300 200)) startedCrop S).
Defined.



Lemma removeActiveObject_takes_its_target_first_witness :
  endAll cropSession = Done exitedCrop /\
  activeObject (_canvas cropSession) = Some 1 /\
  activeObject (_canvas exitedCrop) = None /\
  removeActiveObject cropSession =
    _invoker_invoke (commandFactory_create commands.REMOVE_OBJECT [VObject arrow])
      exitedCrop.
Proof.
  assert (E : endAll cropSession = Done exitedCrop) by (vm_compute; reflexivity).
  split; [exact E |]. split; [reflexivity |].
  destruct (removeActiveObject_takes_its_target_first cropSession exitedCrop E)
    as [AO [_ [R _]]].
  split; [exact AO | exact R].
Defined.

Lemma loadImageFromFile_names_the_image_witness :
  loadImageFromFile (VFile {| name := "lena.png"; blob := "blob:lena" |}) VUndefined
    (init 300 200) =
  execute (loadImageCommand (VString (createObjectURL {| name := "lena.png"; blob := "blob:lena" |}))
             (VString "lena.png")) (init 300 200).
Proof.
  apply (proj1 (proj2 (loadImageFromFile_names_the_image
                         {| name := "lena.png"; blob := "blob:lena" |} VUndefined
                         (init 300 200))));
    [reflexivity | discriminate].
Defined.

Lemma failed_load_raises_after_the_push_witness :
  exists e' before,
    loadImageFromURL (VString "missing.png") (VString "lena") (init 300 200) =
      Raised TypeError e' /\
    redoStack (_invoker e') = [] /\
    (exists below,
       undoStack (_invoker e') =
         loadImageCommand (VString "missing.png") (VString "lena") :: below) /\
    _state e' = states.NORMAL /\
    trace e' = (before ++ [Fired events.PUSH_UNDO_STACK []])%list.
Proof.
  apply (failed_load_raises_after_the_push (VString "missing.png") (VString "lena")
           (init 300 200) (afterEndAll (init 300 200))
           (remember (componentMap (_invoker (init 300 200)))) []);
    [reflexivity | reflexivity | apply endAll_eq; reflexivity | vm_compute; reflexivity].
Defined.

Lemma managed_events_leave_the_history_alone_witness :
  forallb managed [ObjectAdded (stamped arrow); ObjectRemoved draft] = true /\
  raiseAll [ObjectAdded (stamped arrow); ObjectRemoved draft] afterUndo =
    Done (recordAll [Fired events.ADD_OBJECT [VObject (stamped arrow)];
                     Fired events.REMOVE_OBJECT [VObject draft]] afterUndo).
Proof.
  split; [reflexivity |].
  apply (managed_events_leave_the_history_alone
           [ObjectAdded (stamped arrow); ObjectRemoved draft] afterUndo).
  reflexivity.
Defined.

Lemma text_tool_is_reached_exactly_when_guard_passes_witness :
  _state textSession = states.TEXT /\
  truthy (_canvas_getActiveObject textSession) = true /\
  exists e' new,
    changeText (VString "hello") textSession = Done e' /\
    trace e' =
      (trace textSession ++
       Called compList.TEXT "change" [VObject draft; VString "hello"] :: new)%list /\
    Forall notRan new /\ _state e' = states.TEXT.
Proof.
  split; [reflexivity |]. split; [reflexivity |].
  exact (proj1 (proj2 (proj2 (text_tool_is_reached_exactly_when_guard_passes
                                (VString "hello") VUndefined textSession))
                  eq_refl eq_refl)).
Defined.

Lemma keydown_runs_undo_or_redo_witness :
  _onKeyDown 90 89 {| ctrlKey := true; metaKey := false; keyCode := 90 |} loaded =
    undo loaded /\
  _onKeyDown 90 89 {| ctrlKey := false; metaKey := true; keyCode := 89 |} afterUndo =
    redo afterUndo /\
  _onKeyDown 90 89 {| ctrlKey := false; metaKey := false; keyCode := 90 |} loaded =
    Done loaded.
Proof.
  assert (D : 90 <> 89) by discriminate.
  split; [| split].
  - apply (proj1 (proj2 (keydown_runs_undo_or_redo 90 89
                           {| ctrlKey := true; metaKey := false; keyCode := 90 |} loaded)));
      [exact D | reflexivity | reflexivity].
  - apply (proj1 (proj2 (keydown_runs_undo_or_redo 90 89
                           {| ctrlKey := false; metaKey := true; keyCode := 89 |} afterUndo)));
      [exact D | reflexivity | reflexivity].
  - apply (proj1 (keydown_runs_undo_or_redo 90 89
                    {| ctrlKey := false; metaKey := false; keyCode := 90 |} loaded)).
    left. reflexivity.
Defined.


Lemma applied_crop_is_loaded_witness :
  _state cropSessionWithRegion = states.CROP /\
  region (cropper (componentMap (_invoker cropSessionWithRegion))) = Some cropRegion /\
  _state (final (endCropping (VBool true) cropSessionWithRegion)) = states.NORMAL /\
  redoStack (_invoker (final (endCropping (VBool true) cropSessionWithRegion))) = [] /\
  exists below,
    undoStack (_invoker (final (endCropping (VBool true) cropSessionWithRegion))) =
      loadImageCommand (VString (url cropRegion)) (VString (imageName cropRegion)) :: below.
Proof.
  split; [reflexivity |]. split; [reflexivity |].
  apply (proj2 (applied_crop_is_loaded (VBool true) cropRegion cropSessionWithRegion
                  (afterEndAll (cropEnded (VBool true) cropSessionWithRegion))
                  eq_refl eq_refl eq_refl));
    [discriminate | discriminate | apply endAll_eq; reflexivity | vm_compute; discriminate].
Defined.
